(** * The call tracker: polling engine, link registry, event store, heartbeat

    A shallow embedding of [call_tracker_app_real.py] and the properties
    of its polling engine.

    - Text is a [string], one [ascii] per character: the code points
      below 256.
    - The data directory is a typed record: the link list and the
      heartbeat are text files, the event files hold data frames and are
      keyed by their path.  A file is missing, holds data, or exists
      without being readable: opening, decoding or parsing it raises an
      exception, which the file is stored with.  The CSV text behind a
      frame is not modelled: [read_csv] gives back the frame that
      [to_csv] stored.
    - Opening a file for writing may be refused: the file system tells,
      path by path, whether it refuses and with which exception (a name
      that is too long for it, a directory or a file that does not allow
      the write); what it refuses does not change while the program
      runs.  A refused write leaves the file as it was; a write that
      fails after the file was opened is not modelled.  The files
      that the scheduler writes, the event files and the heartbeat, are
      opened this way.  The link list is appended to by the dashboard
      alone, and that append is taken to succeed whenever the list can
      be read.
    - The browser and the wall clock are oracles.  A browser session
      tells how each call of [track_once] ends: starting the driver,
      [get], the bounded wait, [find_elements] and the [text] of each
      button may raise; [quit] does not (the driver swallows the errors
      of a session that is gone).
    - [print], [sleep] and the wall clock do not raise.
    - Exceptions are a result type, threaded with the world through a
      state-and-error monad; the trace records the effects in order.
    - The loop of [background_tracker] never ends; it is observed for
      its first [n] turns. *)

From Stdlib Require Import ZArith Ascii String DecimalString DecimalNat Sorted Lia.
From stdpp Require Import base option gmap strings list.

Local Open Scope Z_scope.
Local Open Scope nat_scope.

(** ** Python text operations *)

Module Py.

Definition LF : string := String "010" EmptyString.

(** [str.isspace] on the code points below 256: TAB, LF, VT, FF, CR, the
    four separators FS, GS, RS, US, the blank, NEL and the no-break
    space. *)
Definition isspace (c : ascii) : bool :=
  match c with
  | "009" | "010" | "011" | "012" | "013"
  | "028" | "029" | "030" | "031" | " " | "133" | "160" => true
  | _ => false
  end%char.

Fixpoint lstrip (s : string) : string :=
  match s with
  | String c rest => if isspace c then lstrip rest else s
  | EmptyString => EmptyString
  end.

Fixpoint rstrip (s : string) : string :=
  match s with
  | String c rest =>
      match rstrip rest with
      | EmptyString => if isspace c then EmptyString else String c EmptyString
      | r => String c r
      end
  | EmptyString => EmptyString
  end.

(** [s.strip()] *)
Definition strip (s : string) : string := rstrip (lstrip s).

(** The capital letters below 256 are A to Z and, but for the
    multiplication sign at 215, the code points 192 to 222. *)
Definition lower_char (c : ascii) : ascii :=
  let n := nat_of_ascii c in
  if (65 <=? n) && (n <=? 90)
     || (192 <=? n) && (n <=? 222) && negb (n =? 215)
  then ascii_of_nat (n + 32) else c.

(** [s.lower()] *)
Fixpoint lower (s : string) : string :=
  match s with
  | String c rest => String (lower_char c) (lower rest)
  | EmptyString => EmptyString
  end.

(** [sub in s] *)
Fixpoint contains (sub s : string) : bool :=
  String.prefix sub s ||
  match s with
  | String _ rest => contains sub rest
  | EmptyString => false
  end.


(** [s.replace(old, new)]: leftmost, non-overlapping occurrences.  [skip]
    counts the characters of a matched occurrence still to be dropped. *)
Fixpoint replace_from (old new : string) (skip : nat) (s : string) : string :=
  match s with
  | String c rest =>
      match skip with
      | S k => replace_from old new k rest
      | O =>
          if String.prefix old s
          then new +:+ replace_from old new (String.length old - 1) rest
          else String c (replace_from old new 0 rest)
      end
  | EmptyString => EmptyString
  end.

Fixpoint intersperse (new s : string) : string :=
  match s with
  | String c rest => new +:+ String c (intersperse new rest)
  | EmptyString => new
  end.

Definition replace (old new s : string) : string :=
  match old with
  | EmptyString => intersperse new s
  | _ => replace_from old new 0 s
  end.

(** Iterating a text file opened with the default [newline=None]: the
    terminators CR LF and CR are translated to LF, and every line keeps
    its terminator. *)
Fixpoint readlines (s : string) : list string :=
  match s with
  | String c rest =>
      if Ascii.eqb c "010" then LF :: readlines rest
      else if Ascii.eqb c "013" then
        match rest with
        | String "010" rest' => LF :: readlines rest'
        | _ => LF :: readlines rest
        end
      else
        match readlines rest with
        | l :: ls => String c l :: ls
        | [] => [String c EmptyString]
        end
  | EmptyString => []
  end.

Definition digit_of (c : ascii) : option Z :=
  let n := nat_of_ascii c in
  if (48 <=? n) && (n <=? 57) then Some (Z.of_nat (n - 48)) else None.

(** The digits of a decimal literal; single underscores may separate
    digits.  [prev] tells whether the previous character was a digit. *)
Fixpoint int_digits (acc : Z) (prev : bool) (s : string) : option Z :=
  match s with
  | String c rest =>
      match digit_of c with
      | Some d => int_digits (10 * acc + d) true rest
      | None =>
          if Ascii.eqb c "_" && prev then int_digits acc false rest else None
      end
  | EmptyString => if prev then Some acc else None
  end.

(** The blanks that [int] skips at both ends of its argument: TAB, LF,
    VT, FF, CR and the blank, and the two blanks above 127, NEL and the
    no-break space, which it first replaces by a blank.  The separators
    FS, GS, RS and US are not among them. *)
Definition int_space (c : ascii) : bool :=
  match c with
  | "009" | "010" | "011" | "012" | "013" | " " | "133" | "160" => true
  | _ => false
  end%char.

Fixpoint int_lstrip (s : string) : string :=
  match s with
  | String c rest => if int_space c then int_lstrip rest else s
  | EmptyString => EmptyString
  end.

Fixpoint int_rstrip (s : string) : string :=
  match s with
  | String c rest =>
      match int_rstrip rest with
      | EmptyString => if int_space c then EmptyString else String c EmptyString
      | r => String c r
      end
  | EmptyString => EmptyString
  end.

(** The number of decimal digits in [s]. *)
Fixpoint digit_count (s : string) : nat :=
  match s with
  | String c rest =>
      (if digit_of c is Some _ then 1 else 0) + digit_count rest
  | EmptyString => 0
  end.

(** [sys.get_int_max_str_digits()], at its default. *)
Definition MAX_STR_DIGITS : nat := 4300.

(** The literal behind the sign: more digits than the limit are
    refused. *)
Definition int_body (body : string) : option Z :=
  if MAX_STR_DIGITS <? digit_count body then None
  else int_digits 0 false body.

(** [int(s)]: [None] stands for [ValueError]. *)
Definition int (s : string) : option Z :=
  match int_rstrip (int_lstrip s) with
  | String "-" rest => Z.opp <$> int_body rest
  | String "+" rest => int_body rest
  | body => int_body body
  end.

(** [str(n)] for a non-negative integer. *)
Definition str (n : nat) : string := NilZero.string_of_uint (Nat.to_uint n).

(** [os.path.join(a, b)] on POSIX. *)
Definition path_join (a b : string) : string :=
  if String.prefix "/" b then b
  else if String.prefix "/" (String.rev a) || bool_decide (a = EmptyString)
       then a +:+ b
       else a +:+ "/" +:+ b.

End Py.

(** ** Exceptions and results *)

(** The exceptions, by class; an exception of a subclass goes by the
    class listed here ([PermissionError] and [FileNotFoundError] by
    [OSError], [UnicodeDecodeError] and the parser errors of pandas by
    [ValueError]). *)
Inductive exn : Type :=
  | SessionNotCreatedException
  | TimeoutException
  | WebDriverException
  | StaleElementReferenceException
  | OSError
  | IndexError
  | ValueError
  | TypeError.

Inductive result (A : Type) : Type :=
  | Ok (a : A)
  | Raise (e : exn).
Arguments Ok {A} a.
Arguments Raise {A} e.

(** The text of an exception, [str(e)]; the name of its class stands
    for it. *)
Definition exn_name (e : exn) : string :=
  match e with
  | SessionNotCreatedException => "SessionNotCreatedException"
  | TimeoutException => "TimeoutException"
  | WebDriverException => "WebDriverException"
  | StaleElementReferenceException => "StaleElementReferenceException"
  | OSError => "OSError"
  | IndexError => "IndexError"
  | ValueError => "ValueError"
  | TypeError => "TypeError"
  end.

(** ** Wall-clock time *)

(** A naive [datetime] object, field by field. *)
Record datetime : Type := {
  year : nat; month : nat; day : nat;
  hour : nat; minute : nat; second : nat; microsecond : nat
}.

Definition digit (d : nat) : ascii := ascii_of_nat (48 + d mod 10).
Definition pad2 (n : nat) : string :=
  String (digit (n / 10)) (String (digit n) EmptyString).
Definition pad4 (n : nat) : string :=
  String (digit (n / 1000)) (String (digit (n / 100)) (pad2 n)).

(** [t.strftime("%Y-%m-%d %H:%M:%S")] *)
Definition strftime (t : datetime) : string :=
  pad4 (year t) +:+ "-" +:+ pad2 (month t) +:+ "-" +:+ pad2 (day t) +:+ " "
  +:+ pad2 (hour t) +:+ ":" +:+ pad2 (minute t) +:+ ":" +:+ pad2 (second t).

(** ** Data frames (pandas) *)

Inductive cell : Type :=
  | CTime (t : datetime)
  | CInt (n : Z).

(** A record of a frame: the cells by column name. *)
Definition record : Type := list (string * cell).

Record frame : Type := {
  columns : list string;
  rows : list record
}.

(** [pd.DataFrame(columns=cs)] *)
Definition DataFrame_empty (cs : list string) : frame :=
  {| columns := cs; rows := [] |}.

(** [pd.DataFrame([r])] *)
Definition DataFrame_of (r : record) : frame :=
  {| columns := r.*1; rows := [r] |}.

(** [pd.concat([df, new], ignore_index=True)]: the rows of [new] follow
    those of [df]; columns of [new] unknown to [df] are added behind. *)
Definition concat (df new : frame) : frame :=
  {| columns := columns df ++ filter (λ c, c ∉ columns df) (columns new);
     rows := rows df ++ rows new |}.

(** ** The data directory, the browser, the world *)

Definition DATA_DIR : string := "link_tracking_data".
Definition LINKS_FILE : string := Py.path_join DATA_DIR "all_links.txt".
Definition POLL_INTERVAL : nat := 60.
Definition HEARTBEAT_FILE : string := Py.path_join DATA_DIR "heartbeat.txt".
Definition DEFAULT_LINK : string :=
  "https://www.astroyogi.com/astrologer/expert/saalivaagana.aspx".

(** What is stored under a name that exists: content that can be read
    back, or a file whose opening, decoding or parsing raises [e] (a
    file that may not be opened: [OSError]; bytes that are no text, a
    file that [read_csv] cannot parse: [ValueError]). *)
Inductive stored (A : Type) : Type :=
  | Unreadable (e : exn)
  | Data (a : A).
Arguments Unreadable {A} e.
Arguments Data {A} a.

(** The files under [DATA_DIR]: [LINKS_FILE], [HEARTBEAT_FILE] and the
    event files, keyed by their path; [None] is a missing file.
    [write_error path] is the exception with which the file system
    refuses to open [path] for writing, if it does. *)
Record disk : Type := {
  links_txt : option (stored string);
  heartbeat_txt : option (stored string);
  event_csv : gmap string (stored frame);
  write_error : string → option exn
}.

(** What one browser session answers to each call of [track_once]. *)
Record session : Type := {
  start : result unit;
  get : result unit;
  wait_until : result unit;
  find_elements : result (list (result string))
}.

(** Effects that leave the process, in the order they happen. *)
Inductive event : Type :=
  | ESession (url : string)
  | EQuit (url : string)
  | EToCsv (path : string)
  | EHeartbeat (count : nat) (last_poll : string)
  | EAppendLine (line : string)
  | EPrint (msg : string)
  | ESleep (seconds : nat).

Record world : Type := {
  fs : disk;
  trace : list event;
  clock_reads : nat;
  sessions : nat
}.

Definition with_fs (d : disk) (w : world) : world :=
  {| fs := d; trace := trace w; clock_reads := clock_reads w;
     sessions := sessions w |}.

Definition emit (e : event) (w : world) : world :=
  {| fs := fs w; trace := trace w ++ [e]; clock_reads := clock_reads w;
     sessions := sessions w |}.

(** ** The monad of the program: world passing with exceptions *)

Definition M (A : Type) : Type := world → result A * world.

Definition ret {A} (a : A) : M A := λ w, (Ok a, w).

Definition bind {A B} (m : M A) (k : A → M B) : M B :=
  λ w, match m w with
       | (Ok a, w') => k a w'
       | (Raise e, w') => (Raise e, w')
       end.

Global Instance M_ret : MRet M := @ret.
Global Instance M_bind : MBind M := λ A B k m, bind m k.

Definition raise {A} (e : exn) : M A := λ w, (Raise e, w).

Definition lift {A} (r : result A) : M A := λ w, (r, w).

(** [try: m  except Exception as e: h e] *)
Definition try_except {A} (m : M A) (h : exn → M A) : M A :=
  λ w, match m w with
       | (Ok a, w') => (Ok a, w')
       | (Raise e, w') => h e w'
       end.

(** [try: m  finally: f]; an exception of [f] replaces the outcome. *)
Definition try_finally {A} (m : M A) (f : M unit) : M A :=
  λ w, match m w with
       | (r, w') =>
           match f w' with
           | (Ok _, w'') => (r, w'')
           | (Raise e, w'') => (Raise e, w'')
           end
       end.

Definition effect (e : event) : M unit := λ w, (Ok tt, emit e w).

Definition print (msg : string) : M unit := effect (EPrint msg).

Definition sleep (seconds : nat) : M unit := effect (ESleep seconds).

Fixpoint for_each {A} (xs : list A) (body : A → M unit) : M unit :=
  match xs with
  | x :: rest => body x;; for_each rest body
  | [] => mret tt
  end.

(** ** The program *)

(** The per-link storage name: the expression bound to [safe] in
    [append_log] and again in the link selector of the dashboard. *)
Definition safe (url : string) : string :=
  Py.replace "/" "_" (Py.replace "://" "_" url).

Definition csv_path (url : string) : string :=
  Py.path_join DATA_DIR (safe url +:+ ".csv").

(** [open(HEARTBEAT_FILE, "w")], which the file system may refuse, and
    the [f.write] of the two lines. *)
Definition write_heartbeat (count : nat) (last_poll : string) : M unit :=
  λ w,
    match write_error (fs w) HEARTBEAT_FILE with
    | Some e => (Raise e, w)
    | None =>
        let text := Py.str count +:+ Py.LF +:+ last_poll +:+ Py.LF in
        let d := {| links_txt := links_txt (fs w);
                    heartbeat_txt := Some (Data text);
                    event_csv := event_csv (fs w);
                    write_error := write_error (fs w) |} in
        (Ok tt, emit (EHeartbeat count last_poll) (with_fs d w))
    end.

(** [open(HEARTBEAT_FILE)] followed by [f.readlines()] *)
Definition open_heartbeat : M (option (list string)) :=
  λ w, match heartbeat_txt (fs w) with
       | None => (Ok None, w)
       | Some (Unreadable e) => (Raise e, w)
       | Some (Data text) => (Ok (Some (Py.readlines text)), w)
       end.

(** [lines[i]] *)
Definition item (lines : list string) (i : nat) : M string :=
  match lines !! i with
  | Some l => mret l
  | None => raise IndexError
  end.

Definition read_heartbeat : M (Z * option string) :=
  f ← open_heartbeat;
  match f with
  | None => mret (0%Z, None)
  | Some lines =>
      try_except
        (l0 ← item lines 0;
         count ← match Py.int l0 with
                 | Some n => mret n
                 | None => raise ValueError
                 end;
         l1 ← item lines 1;
         let last_poll := Py.strip l1 in
         mret (count, Some last_poll))
        (λ _, mret (0%Z, None))
  end.

Definition load_links : M (list string) :=
  λ w, match links_txt (fs w) with
       | Some (Data text) =>
           (Ok (filter (λ l, l ≠ EmptyString)
                  (Py.strip <$> Py.readlines text)), w)
       | Some (Unreadable e) => (Raise e, w)
       | None => (Ok [DEFAULT_LINK], w)
       end.

(** [int(b)] for the value of a flag *)
Definition int_of_flag (b : option bool) : M Z :=
  match b with
  | Some true => mret 1%Z
  | Some false => mret 0%Z
  | None => raise TypeError
  end.

(** [pd.read_csv(path, parse_dates=["datetime"])] when the file exists,
    else the empty frame with the three column names *)
Definition read_or_new (path : string) : M frame :=
  λ w, match event_csv (fs w) !! path with
       | Some (Data df) => (Ok df, w)
       | Some (Unreadable e) => (Raise e, w)
       | None =>
           (Ok (DataFrame_empty ["datetime"; "Available_For_Call"; "On_Call"]),
            w)
       end.

(** [df.to_csv(path, index=False)]: the file is opened for writing,
    which the file system may refuse, and replaced by the frame. *)
Definition to_csv (df : frame) (path : string) : M unit :=
  λ w,
    match write_error (fs w) path with
    | Some e => (Raise e, w)
    | None =>
        let d := {| links_txt := links_txt (fs w);
                    heartbeat_txt := heartbeat_txt (fs w);
                    event_csv := <[path := Data df]> (event_csv (fs w));
                    write_error := write_error (fs w) |} in
        (Ok tt, emit (EToCsv path) (with_fs d w))
    end.

(** The loop over the buttons in [track_once]; reading the text of a
    button may raise. *)
Fixpoint scan (buttons : list (result string)) (found_call found_joinq : bool)
  : result (bool * bool) :=
  match buttons with
  | btn :: rest =>
      match btn with
      | Ok text =>
          let txt := Py.lower (Py.strip text) in
          let found_call :=
            if Py.contains "call" txt then true else found_call in
          let found_joinq :=
            if Py.contains "join q" txt || Py.contains "joinq" txt
            then true else found_joinq in
          scan rest found_call found_joinq
      | Raise e => Raise e
      end
  | [] => Ok (found_call, found_joinq)
  end.

Section Tracker.

(** The page served to the [n]-th browser session of the process, and the
    [n]-th reading of the wall clock. *)
Variable browser : nat → string → session.
Variable clock : nat → datetime.

(** [datetime.now()] *)
Definition datetime_now : M datetime :=
  λ w, (Ok (clock (clock_reads w)),
        {| fs := fs w; trace := trace w; clock_reads := S (clock_reads w);
           sessions := sessions w |}).

(** [webdriver.Chrome(service=Service(ChromeDriverManager().install()), ...)] *)
Definition open_session (url : string) : M session :=
  λ w,
    let s := browser (sessions w) url in
    let w' := {| fs := fs w; trace := trace w; clock_reads := clock_reads w;
                 sessions := S (sessions w) |} in
    match start s with
    | Ok _ => (Ok s, emit (ESession url) w')
    | Raise e => (Raise e, w')
    end.

Definition append_log (url : string) (call_vis joinq_vis : option bool)
  : M unit :=
  let path := csv_path url in
  df ← read_or_new path;
  now ← datetime_now;
  a ← int_of_flag call_vis;
  b ← int_of_flag joinq_vis;
  let new := DataFrame_of
    [("datetime", CTime now); ("Available_For_Call", CInt a);
     ("On_Call", CInt b)] in
  let df := concat df new in
  to_csv df path.

Definition track_once (url : string) : M (option bool * option bool) :=
  driver ← open_session url;
  try_finally
    (try_except
       (lift (get driver);;
        lift (wait_until driver);;
        buttons ← lift (find_elements driver);
        '(found_call, found_joinq) ← lift (scan buttons false false);
        mret (Some found_call, Some found_joinq))
       (λ e,
         print ("[ERROR] " +:+ url +:+ " - " +:+ exn_name e);;
         mret (None, None)))
    (effect (EQuit url)).

(** The body of the loop over the links. *)
Definition poll_link (url : string) : M unit :=
  '(call_vis, joinq_vis) ← track_once url;
  match call_vis with
  | Some _ => append_log url call_vis joinq_vis
  | None => print ("[WARN] Skipped logging for " +:+ url +:+ " due to error.")
  end.

(** One turn of the loop of [background_tracker]; [count] is the local
    variable, returned for the next turn. *)
Definition cycle (count : nat) : M nat :=
  links ← load_links;
  for_each links poll_link;;
  let count := count + 1 in
  now ← datetime_now;
  let last_poll := strftime now in
  write_heartbeat count last_poll;;
  print ("[TRACKER] Poll #" +:+ Py.str count +:+ " at " +:+ last_poll);;
  sleep POLL_INTERVAL;;
  mret count.

Fixpoint cycles (n : nat) (count : nat) : M nat :=
  match n with
  | S n' => count' ← cycle count; cycles n' count'
  | O => mret count
  end.

(** [background_tracker], observed for its first [n] turns. *)
Definition background_tracker (n : nat) : M nat := cycles n 0.

End Tracker.




(** The link selector of the dashboard: the frame behind the charts for
    the selected link, if its event file exists. *)
Definition view_link (sel : string) : M (option frame) :=
  if bool_decide (sel ≠ EmptyString) then
    λ w, match event_csv (fs w) !! csv_path sel with
         | Some (Data df) => (Ok (Some df), w)
         | Some (Unreadable e) => (Raise e, w)
         | None => (Ok None, w)
         end
  else mret None.

(** The guard around the start of the background thread: [ss] is
    [st.session_state]; the boolean tells whether the thread was
    started by this run of the script. *)
Definition start_tracker (ss : gmap string bool) : bool * gmap string bool :=
  match ss !! "tracker_started" with
  | None => (true, <["tracker_started" := true]> ss)
  | Some _ => (false, ss)
  end.


(** * Vocabulary of the properties *)

(** [sub in s] holds exactly when [sub] occurs in [s]. *)
Definition occurs_in (sub s : string) : Prop :=
  ∃ pre post, s = pre +:+ sub +:+ post.

(** The character [c] does not occur in [s]. *)
Fixpoint free_of (c : ascii) (s : string) : bool :=
  match s with
  | String x rest => negb (Ascii.eqb x c) && free_of c rest
  | EmptyString => true
  end.

(** Replacing the path separator works character by character. *)
Definition slash_to_underscore (c : ascii) : ascii :=
  if Ascii.eqb c "/" then "_"%char else c.

(** A URL [scheme://rest] whose scheme holds none of [:], [/], [_] and
    whose rest holds no [_] and no further [://]. *)
Definition plain_url (scheme rest : string) : Prop :=
  free_of ":" scheme = true ∧ free_of "/" scheme = true ∧
  free_of "_" scheme = true ∧
  free_of "_" rest = true ∧ Py.contains "://" rest = false.

(** The label of a button as the probe inspects it. *)
Definition label (text : string) : string := Py.lower (Py.strip text).

Definition says_call (text : string) : bool := Py.contains "call" (label text).

Definition says_joinq (text : string) : bool :=
  Py.contains "join q" (label text) || Py.contains "joinq" (label text).

(** A text shows a word when the word stands somewhere in it, each of
    its small letters written small or as a capital: the reading of
    "contains, once lower-cased" that does not go through [lower]. *)
Definition small_letter (p : ascii) : bool :=
  (97 <=? nat_of_ascii p) && (nat_of_ascii p <=? 122).

Definition capital (p : ascii) : ascii :=
  if small_letter p then ascii_of_nat (nat_of_ascii p - 32) else p.

Definition same_letter (p x : ascii) : Prop := x = p ∨ x = capital p.

Fixpoint spells (word s : string) : Prop :=
  match word, s with
  | String p word', String x s' => same_letter p x ∧ spells word' s'
  | EmptyString, EmptyString => True
  | _, _ => False
  end.

Definition shows (word text : string) : Prop :=
  ∃ pre mid post, text = pre +:+ mid +:+ post ∧ spells word mid.

(** Every spelling of the word begins with a character that is no
    blank and ends with one. *)
Definition firm (word : string) : Prop :=
  ∀ mid, spells word mid →
    (∃ x m, mid = String x m ∧ Py.isspace x = false) ∧ Py.rstrip mid = mid.

(** Words of small letters, digits and blanks: what [lower] leaves
    alone and no letter above 127 is lowered to. *)
Definition plain_char (p : ascii) : bool :=
  (nat_of_ascii p <? 65) || (90 <? nat_of_ascii p) && (nat_of_ascii p <? 192).

Fixpoint plain_word (word : string) : bool :=
  match word with
  | String p rest => plain_char p && plain_word rest
  | EmptyString => true
  end.

(** The statements of [track_once] between [try:] and [except]. *)
Definition guarded (s : session) : result (bool * bool) :=
  match get s with
  | Ok _ =>
      match wait_until s with
      | Ok _ =>
          match find_elements s with
          | Ok buttons => scan buttons false false
          | Raise e => Raise e
          end
      | Raise e => Raise e
      end
  | Raise e => Raise e
  end.

(** The world after a probe whose session started. *)
Definition probed (url : string) (msgs : list event) (w : world) : world :=
  {| fs := fs w;
     trace := ((trace w ++ [ESession url]) ++ msgs) ++ [EQuit url];
     clock_reads := clock_reads w;
     sessions := S (sessions w) |}.


(** ** Text files, as the properties see them *)

(** Neither LF nor CR occurs in [s]. *)
Definition no_breaks (s : string) : bool :=
  free_of "010" s && free_of "013" s.

(** The text of a file that holds the given lines, each terminated. *)
Fixpoint unlines (lines : list string) : string :=
  match lines with
  | l :: rest => l +:+ Py.LF +:+ unlines rest
  | [] => EmptyString
  end.




(** ** The event store and the heartbeat, as the properties see them *)

(** The record that [append_log] builds. *)
Definition observation (now : datetime) (c j : bool) : record :=
  [("datetime", CTime now);
   ("Available_For_Call", CInt (if c then 1 else 0)%Z);
   ("On_Call", CInt (if j then 1 else 0)%Z)].

(** The frame that [append_log] puts the new record behind: the one
    read from the event file, or the empty one with the three columns. *)
Definition frame_or_new (found : option (stored frame)) : frame :=
  match found with
  | Some (Data df) => df
  | _ => DataFrame_empty ["datetime"; "Available_For_Call"; "On_Call"]
  end.

(** The world after a reading of the clock. *)
Definition ticked (w : world) : world :=
  {| fs := fs w; trace := trace w; clock_reads := S (clock_reads w);
     sessions := sessions w |}.

(** The world after [append_log] stored [df] for [url]. *)
Definition logged (url : string) (df : frame) (w : world) : world :=
  {| fs := {| links_txt := links_txt (fs w);
              heartbeat_txt := heartbeat_txt (fs w);
              event_csv := <[csv_path url := Data df]> (event_csv (fs w));
              write_error := write_error (fs w) |};
     trace := trace w ++ [EToCsv (csv_path url)];
     clock_reads := S (clock_reads w);
     sessions := sessions w |}.

(** The heartbeats written along a trace, oldest first. *)
Fixpoint heartbeats (tr : list event) : list (nat * string) :=
  match tr with
  | EHeartbeat count last_poll :: rest => (count, last_poll) :: heartbeats rest
  | _ :: rest => heartbeats rest
  | [] => []
  end.

(** The text of the heartbeat file. *)
Definition heartbeat_text (count : nat) (last_poll : string) : string :=
  Py.str count +:+ Py.LF +:+ last_poll +:+ Py.LF.

(** The world at the end of a cycle whose loop over the links ended in
    [w]: [count] is the incremented counter, [now] the clock reading. *)
Definition completed (count : nat) (now : datetime) (w : world) : world :=
  {| fs := {| links_txt := links_txt (fs w);
              heartbeat_txt := Some (Data (heartbeat_text count (strftime now)));
              event_csv := event_csv (fs w);
              write_error := write_error (fs w) |};
     trace := trace w ++
       [EHeartbeat count (strftime now);
        EPrint ("[TRACKER] Poll #" +:+ Py.str count +:+ " at "
                +:+ strftime now);
        ESleep POLL_INTERVAL];
     clock_reads := S (clock_reads w);
     sessions := sessions w |}.

(** The same world with another heartbeat file. *)
Definition with_heartbeat (hb : option (stored string)) (w : world) : world :=
  with_fs {| links_txt := links_txt (fs w); heartbeat_txt := hb;
             event_csv := event_csv (fs w);
             write_error := write_error (fs w) |} w.

(** ** Order of instants *)

(** The ranges of the fields of a [datetime] object, from the year 1000
    on, where [%Y] has its four digits. *)
Definition valid_datetime (t : datetime) : Prop :=
  1000 ≤ year t < 100 * 100 ∧ 1 ≤ month t ≤ 12 ∧ 1 ≤ day t ≤ 31 ∧
  hour t < 24 ∧ minute t < 60 ∧ second t < 60 ∧ microsecond t < 1000 * 1000.

Fixpoint lex (a b : list nat) : comparison :=
  match a, b with
  | x :: a', y :: b' =>
      match x ?= y with
      | Eq => lex a' b'
      | c => c
      end
  | [], [] => Eq
  | [], _ :: _ => Lt
  | _ :: _, [] => Gt
  end.

Definition fields (t : datetime) : list nat :=
  [year t; month t; day t; hour t; minute t; second t; microsecond t].

(** [a <= b] on [datetime] objects: field by field, the year first. *)
Definition datetime_le (a b : datetime) : Prop :=
  lex (fields a) (fields b) ≠ Gt.

(** ** The scheduler, as the properties see it *)

(** Between the start and the end of the loop over the links: the two
    text files are as before, no heartbeat was written, the clock was
    not read backwards, the file system refuses what it refused. *)
Definition quiet (w w1 : world) : Prop :=
  links_txt (fs w1) = links_txt (fs w) ∧
  heartbeat_txt (fs w1) = heartbeat_txt (fs w) ∧
  heartbeats (trace w1) = heartbeats (trace w) ∧
  clock_reads w ≤ clock_reads w1 ∧
  write_error (fs w1) = write_error (fs w).

(** A file that is missing or can be read. *)
Definition readable {A} (f : option (stored A)) : Prop :=
  ∀ e, f ≠ Some (Unreadable e).




(** ** Runs, as the further properties see them *)

(** The rows stored for the event file [p]; none when the file is
    missing or cannot be read. *)
Definition history (w : world) (p : string) : list record :=
  match event_csv (fs w) !! p with
  | Some (Data df) => rows df
  | _ => []
  end.

(** The browser sessions opened, and those quit, along a trace. *)
Fixpoint opened (tr : list event) : nat :=
  match tr with
  | ESession _ :: rest => S (opened rest)
  | _ :: rest => opened rest
  | [] => 0
  end.

Fixpoint closed (tr : list event) : nat :=
  match tr with
  | EQuit _ :: rest => S (closed rest)
  | _ :: rest => closed rest
  | [] => 0
  end.

(** The lines appended to the link list file along a trace. *)
Fixpoint appended (tr : list event) : list string :=
  match tr with
  | EAppendLine line :: rest => line :: appended rest
  | _ :: rest => appended rest
  | [] => []
  end.


(** Among [links], probed by the sessions [k], [k + 1], ..., the number
    of those stored under [p] whose probe gives the two flags. *)
Fixpoint successes (browser : nat → string → session) (p : string)
    (links : list string) (k : nat) : nat :=
  match links with
  | url :: rest =>
      (if bool_decide (csv_path url = p)
       then match guarded (browser k url) with Ok _ => 1 | Raise _ => 0 end
       else 0)
      + successes browser p rest (S k)
  | [] => 0
  end.

(** The script run [n] times over one session state: the number of
    background threads started, and the state left. *)
Fixpoint reruns (n : nat) (ss : gmap string bool) : nat * gmap string bool :=
  match n with
  | S n' =>
      let '(started, ss') := start_tracker ss in
      let '(k, ss'') := reruns n' ss' in
      ((if started then 1 else 0) + k, ss'')
  | O => (0, ss)
  end.


(** As many sessions were quit as were opened between [w] and [w']. *)
Definition balanced (w w' : world) : Prop :=
  opened (trace w') + closed (trace w) = closed (trace w') + opened (trace w).

(** The link list file is as before and nothing was appended to it. *)
Definition registry_kept (w w' : world) : Prop :=
  links_txt (fs w') = links_txt (fs w) ∧
  appended (trace w') = appended (trace w).



(** ** Sample pages, clocks and worlds *)

(** A page that shows buttons with the given labels. *)
Definition page (texts : list string) : session :=
  {| start := Ok tt; get := Ok tt; wait_until := Ok tt;
     find_elements := Ok (Ok <$> texts) |}.

(** A page on which no button appears within the bound. *)
Definition page_timeout : session :=
  {| start := Ok tt; get := Ok tt; wait_until := Raise TimeoutException;
     find_elements := Ok [] |}.

(** A page whose buttons are found within the bound; the second one is
    redrawn before its label is read. *)
Definition page_redrawn : session :=
  {| start := Ok tt; get := Ok tt; wait_until := Ok tt;
     find_elements :=
       Ok [Ok " Call Now "%string; Raise StaleElementReferenceException] |}.


(** A file system that refuses file names of more than 255 bytes. *)
Definition NAME_MAX : nat := 255.

(** The bytes of the UTF-8 encoding of a text. *)
Fixpoint utf8_length (s : string) : nat :=
  match s with
  | String c rest => (if nat_of_ascii c <? 128 then 1 else 2) + utf8_length rest
  | EmptyString => 0
  end.

(** The name behind the last separator of a path. *)
Fixpoint basename (path : string) : string :=
  match path with
  | String c rest =>
      if Ascii.eqb c "/" then basename rest
      else if free_of "/" rest then path else basename rest
  | EmptyString => EmptyString
  end.

Definition refuses_long_names (path : string) : option exn :=
  if NAME_MAX <? utf8_length (basename path) then Some OSError else None.

Definition empty_disk : disk :=
  {| links_txt := None; heartbeat_txt := None; event_csv := ∅;
     write_error := refuses_long_names |}.

Definition boot (d : disk) : world :=
  {| fs := d; trace := []; clock_reads := 0; sessions := 0 |}.

(** A clock that advances by a second per reading, up to 12:00:59. *)
Definition tick (i : nat) : datetime :=
  {| year := 2024; month := 3; day := 9; hour := 12; minute := 0;
     second := Nat.min i 59; microsecond := 0 |}.

(** The wall clock of the night in which summer time ends: the first
    two readings are taken at 01:59:30, the later ones, the clock having
    been set back by an hour, at 01:00:30. *)
Definition autumn_clock (i : nat) : datetime :=
  {| year := 2024; month := 11; day := 3; hour := 1;
     minute := if i <? 2 then 59 else 0; second := 30; microsecond := 0 |}.

(** The link list file holds the links A and B. *)
Definition two_links : disk :=
  {| links_txt := Some (Data ("A" +:+ Py.LF +:+ "B" +:+ Py.LF));
     heartbeat_txt := None; event_csv := ∅;
     write_error := refuses_long_names |}.

(** The page of A shows a call button; that of B never shows one. *)
Definition a_up_b_down (n : nat) (url : string) : session :=
  if bool_decide (url = "A") then page [" Call Now "] else page_timeout.


(** A link of 314 characters. *)
Definition long_link : string :=
  "https://a.com/" +:+ string_of_list_ascii (repeat "x"%char 300).

(** The row that an earlier poll logged for A. *)
Definition old_row : record :=
  observation
    {| year := 2024; month := 3; day := 8; hour := 23; minute := 59;
       second := 0; microsecond := 250 |} false true.

(** The event file of A holds one row. *)
Definition a_logged : disk :=
  {| links_txt := Some (Data ("A" +:+ Py.LF +:+ "B" +:+ Py.LF));
     heartbeat_txt := None;
     event_csv :=
       {[csv_path "A" :=
           Data {| columns := ["datetime"; "Available_For_Call"; "On_Call"];
                   rows := [old_row] |}]};
     write_error := refuses_long_names |}.

(** The event file that the links http://a/b and http://a_b share holds
    one row. *)
Definition shared_log : disk :=
  {| links_txt := None; heartbeat_txt := None;
     event_csv :=
       {[csv_path "http://a/b" :=
           Data {| columns := ["datetime"; "Available_For_Call"; "On_Call"];
                   rows := [old_row] |}]};
     write_error := refuses_long_names |}.


(** The link list file exists and may not be opened. *)
Definition unreadable_links : disk :=
  {| links_txt := Some (Unreadable OSError); heartbeat_txt := None;
     event_csv := ∅; write_error := refuses_long_names |}.

(** The heartbeat file exists and may not be opened. *)
Definition unreadable_heartbeat : disk :=
  {| links_txt := None; heartbeat_txt := Some (Unreadable OSError);
     event_csv := ∅; write_error := refuses_long_names |}.

(** The heartbeat file holds a word where the count should be. *)
Definition corrupt_heartbeat : disk :=
  {| links_txt := None;
     heartbeat_txt := Some (Data ("seven" +:+ Py.LF +:+ "now" +:+ Py.LF));
     event_csv := ∅; write_error := refuses_long_names |}.

(** The heartbeat file holds the separator FS before the count. *)
Definition separator_heartbeat : disk :=
  {| links_txt := None;
     heartbeat_txt :=
       Some (Data (String "028" "1" +:+ Py.LF +:+ "now" +:+ Py.LF));
     event_csv := ∅; write_error := refuses_long_names |}.

(** The heartbeat that an earlier process left behind. *)
Definition old_heartbeat : option (stored string) :=
  Some (Data (heartbeat_text 7 "2024-03-08 23:59:59")).

(** The link list file holds two blank lines. *)
Definition blank_links : disk :=
  {| links_txt := Some (Data (" " +:+ Py.LF +:+ Py.LF));
     heartbeat_txt := None; event_csv := ∅;
     write_error := refuses_long_names |}.

(** The link list holds A and B; the event file of A is empty, which
    [read_csv] does not parse. *)
Definition a_log_unreadable : disk :=
  {| links_txt := Some (Data ("A" +:+ Py.LF +:+ "B" +:+ Py.LF));
     heartbeat_txt := None;
     event_csv := {[csv_path "A" := Unreadable ValueError]};
     write_error := refuses_long_names |}.

(** The link list holds the long link alone. *)
Definition long_link_listed : disk :=
  {| links_txt := Some (Data (long_link +:+ Py.LF));
     heartbeat_txt := None; event_csv := ∅;
     write_error := refuses_long_names |}.

(** The heartbeat file may not be written; the link list holds A, B. *)
Definition heartbeat_locked : disk :=
  {| links_txt := Some (Data ("A" +:+ Py.LF +:+ "B" +:+ Py.LF));
     heartbeat_txt := None; event_csv := ∅;
     write_error :=
       λ path, if bool_decide (path = HEARTBEAT_FILE) then Some OSError
               else None |}.


(** * Properties *)

(** ** Facts about text *)

Section Text.

Import Py.

Lemma prefix_nil (s : string) : String.prefix EmptyString s = true.
Proof. by destruct s. Qed.

Lemma prefix_cons (a b : ascii) (s t : string) :
  String.prefix (String a s) (String b t)
  = bool_decide (a = b) && String.prefix s t.
Proof. simpl. destruct (ascii_dec a b); by case_bool_decide. Qed.

Lemma prefix_app (a post : string) : String.prefix a (a +:+ post) = true.
Proof.
  induction a as [|c a IH]; [apply prefix_nil|].
  change (String c a +:+ post) with (String c (a +:+ post)).
  rewrite prefix_cons, IH. by case_bool_decide.
Qed.

Lemma prefix_inv (a s : string) :
  String.prefix a s = true → ∃ post, s = a +:+ post.
Proof.
  revert s. induction a as [|c a IH]; intros s H; [by exists s|].
  destruct s as [|b s]; [done|]. rewrite prefix_cons in H.
  apply andb_prop in H as [Hc Hs]. apply bool_decide_eq_true in Hc as ->.
  destruct (IH _ Hs) as [post ->]. by exists post.
Qed.

Lemma str_app_cons (c : ascii) (a b : string) :
  String c a +:+ b = String c (a +:+ b).
Proof. done. Qed.

Lemma str_app_nil_r (s : string) : s +:+ EmptyString = s.
Proof. induction s as [|c s IH]; [done|]. by rewrite str_app_cons, IH. Qed.

Lemma str_app_assoc (a b c : string) : (a +:+ b) +:+ c = a +:+ (b +:+ c).
Proof. induction a as [|x a IH]; [done|]. by rewrite !str_app_cons, IH. Qed.

Lemma str_app_length (a b : string) :
  String.length (a +:+ b) = String.length a + String.length b.
Proof.
  induction a as [|x a IH]; [done|]. rewrite str_app_cons. cbn.
  by rewrite IH.
Qed.

Lemma str_app_inv_tail (a b t : string) : a +:+ t = b +:+ t → a = b.
Proof.
  revert b. induction a as [|x a IH]; intros [|y b] H; [done| | |].
  - apply (f_equal String.length) in H. rewrite !str_app_length in H.
    cbn in H. lia.
  - apply (f_equal String.length) in H. rewrite !str_app_length in H.
    cbn in H. lia.
  - rewrite !str_app_cons in H. injection H as -> H. f_equal. by apply IH.
Qed.

Lemma contains_cons (sub : string) (c : ascii) (s : string) :
  contains sub (String c s)
  = String.prefix sub (String c s) || contains sub s.
Proof. done. Qed.

Lemma contains_occurs (sub s : string) :
  contains sub s = true ↔ occurs_in sub s.
Proof.
  split.
  - induction s as [|c s IH]; intros H.
    + destruct sub; [|done]. by exists EmptyString, EmptyString.
    + rewrite contains_cons in H. apply orb_prop in H as [H|H].
      * apply prefix_inv in H as [post ->]. by exists EmptyString, post.
      * destruct (IH H) as (pre & post & ->). by exists (String c pre), post.
  - intros (pre & post & ->). induction pre as [|c pre IH].
    + change (EmptyString +:+ sub +:+ post) with (sub +:+ post).
      pose proof (prefix_app sub post) as P.
      destruct (sub +:+ post) as [|c r].
      * by destruct sub.
      * by rewrite contains_cons, P.
    + rewrite str_app_cons, contains_cons, IH. apply orb_true_r.
Qed.

Lemma lstrip_app_LF (s : string) :
  lstrip (s +:+ LF) = if decide (lstrip s = EmptyString) then EmptyString
                      else lstrip s +:+ LF.
Proof.
  induction s as [|c s IH]; [done|]. rewrite str_app_cons. cbn [lstrip].
  destruct (isspace c); [done|]. by rewrite decide_False.
Qed.

Lemma rstrip_app_LF (s : string) : rstrip (s +:+ LF) = rstrip s.
Proof.
  induction s as [|c s IH]; [done|]. rewrite str_app_cons. cbn [rstrip].
  by rewrite IH.
Qed.

(** The terminator of a line does not survive [strip]. *)
Lemma strip_app_LF (s : string) : strip (s +:+ LF) = strip s.
Proof.
  unfold strip. rewrite lstrip_app_LF. case_decide as E.
  - by rewrite E.
  - apply rstrip_app_LF.
Qed.

Lemma readlines_cons_regular (c : ascii) (s : string) :
  Ascii.eqb c "010" = false → Ascii.eqb c "013" = false →
  readlines (String c s) =
    match readlines s with
    | l :: ls => String c l :: ls
    | [] => [String c EmptyString]
    end.
Proof. intros H1 H2. cbn [readlines]. by rewrite H1, H2. Qed.

Lemma no_breaks_cons (c : ascii) (s : string) :
  no_breaks (String c s) = true →
  Ascii.eqb c "010" = false ∧ Ascii.eqb c "013" = false ∧
  no_breaks s = true.
Proof.
  unfold no_breaks. cbn [free_of]. intros H.
  apply andb_prop in H as [H1 H2].
  apply andb_prop in H1 as [H1 H1'], H2 as [H2 H2'].
  apply negb_true_iff in H1, H2. by rewrite H1', H2'.
Qed.

(** A line without breaks, followed by LF, is read as one line. *)
Lemma readlines_line (l rest : string) :
  no_breaks l = true →
  readlines (l +:+ LF +:+ rest) = (l +:+ LF) :: readlines rest.
Proof.
  induction l as [|c l IH]; intros H; [done|].
  apply no_breaks_cons in H as (H1 & H2 & H).
  rewrite !str_app_cons, readlines_cons_regular by done. by rewrite (IH H).
Qed.

Lemma readlines_last (l : string) :
  no_breaks l = true →
  readlines l = if decide (l = EmptyString) then [] else [l].
Proof.
  induction l as [|c l IH]; intros H; [done|].
  apply no_breaks_cons in H as (H1 & H2 & H).
  rewrite readlines_cons_regular, (IH H) by done.
  rewrite (decide_False (P := String c l = EmptyString)) by done.
  by case_decide; subst.
Qed.

Lemma readlines_unlines (lines : list string) (last : string) :
  Forall (λ l, no_breaks l = true) lines → no_breaks last = true →
  readlines (unlines lines +:+ last)
  = ((λ l, l +:+ LF) <$> lines)
    ++ (if decide (last = EmptyString) then [] else [last]).
Proof.
  intros Hl Hlast. induction Hl as [|l lines H _ IH].
  - by apply readlines_last.
  - cbn [unlines]. rewrite !str_app_assoc, readlines_line by done.
    by rewrite IH.
Qed.



End Text.

(** ** Trimming *)

Section Trimming.

Import Py.

Lemma rstrip_cons_solid (c : ascii) (s : string) :
  isspace c = false → rstrip (String c s) = String c (rstrip s).
Proof. intros H. cbn [rstrip]. rewrite H. by destruct (rstrip s). Qed.

Lemma rstrip_idem (s : string) : rstrip (rstrip s) = rstrip s.
Proof.
  induction s as [|c s IH]; [done|]. cbn [rstrip].
  destruct (rstrip s) as [|c' r] eqn:E.
  - destruct (isspace c) eqn:Ec; [done|]. cbn [rstrip]. by rewrite Ec.
  - cbn [rstrip] in *. by rewrite IH.
Qed.

Lemma lstrip_solid (s : string) :
  lstrip s = EmptyString ∨
  ∃ c r, lstrip s = String c r ∧ isspace c = false.
Proof.
  induction s as [|c s IH]; [by left|]. cbn [lstrip].
  destruct (isspace c) eqn:E; [done|]. right. by exists c, s.
Qed.

(** Trimming twice is trimming once. *)
Lemma strip_idem (s : string) : strip (strip s) = strip s.
Proof.
  unfold strip. destruct (lstrip_solid s) as [->|(c & r & -> & Hc)]; [done|].
  rewrite (rstrip_cons_solid _ _ Hc). cbn [lstrip]. rewrite Hc.
  by rewrite <- (rstrip_cons_solid _ _ Hc), rstrip_idem.
Qed.

Lemma free_of_lstrip (c : ascii) (s : string) :
  free_of c s = true → free_of c (lstrip s) = true.
Proof.
  induction s as [|x s IH]; [done|]. cbn [lstrip].
  destruct (isspace x); [|done]. cbn [free_of]. intros H.
  apply andb_prop in H as [_ H]. by apply IH.
Qed.

Lemma free_of_rstrip (c : ascii) (s : string) :
  free_of c s = true → free_of c (rstrip s) = true.
Proof.
  induction s as [|x s IH]; [done|]. cbn [free_of rstrip]. intros H.
  apply andb_prop in H as [Hx H]. specialize (IH H).
  destruct (rstrip s) as [|y r].
  - destruct (isspace x); [done|]. cbn [free_of]. by rewrite Hx.
  - cbn [free_of] in *. by rewrite Hx, IH.
Qed.

Lemma no_breaks_strip (s : string) :
  no_breaks s = true → no_breaks (strip s) = true.
Proof.
  unfold no_breaks, strip. intros H. apply andb_prop in H as [H1 H2].
  by rewrite !free_of_rstrip by (by apply free_of_lstrip).
Qed.

End Trimming.

(** ** Labels, lower-cased and trimmed *)

Section Labels.

Import Py.

Lemma ascii_eq_nat (a b : ascii) : a = b ↔ nat_of_ascii a = nat_of_ascii b.
Proof.
  split; [by intros ->|]. intros H.
  by rewrite <- (ascii_nat_embedding a), <- (ascii_nat_embedding b), H.
Qed.

Lemma lower_app (a b : string) : lower (a +:+ b) = lower a +:+ lower b.
Proof.
  induction a as [|c a IH]; [done|].
  rewrite str_app_cons. cbn [lower]. by rewrite str_app_cons, IH.
Qed.

Lemma lower_app_inv (s a b : string) :
  lower s = a +:+ b → ∃ a' b', s = a' +:+ b' ∧ lower a' = a ∧ lower b' = b.
Proof.
  revert s. induction a as [|c a IH]; intros s H; [by exists EmptyString, s|].
  destruct s as [|x s]; [done|]. rewrite str_app_cons in H. cbn [lower] in H.
  injection H as Hc H. destruct (IH s H) as (a' & b' & -> & Ha & Hb).
  exists (String x a'), b'. cbn [lower]. by rewrite Hc, Ha.
Qed.

(** A plain character is what [lower] makes of itself and of its
    capital, and of nothing else. *)
Lemma lower_char_plain (p x : ascii) :
  plain_char p = true → lower_char x = p ↔ same_letter p x.
Proof.
  unfold plain_char, lower_char, same_letter, capital, small_letter.
  pose proof (nat_ascii_bounded x) as Bx.
  pose proof (nat_ascii_bounded p) as Bp.
  rewrite !ascii_eq_nat.
  destruct (Nat.ltb_spec (nat_of_ascii p) 65),
    (Nat.ltb_spec 90 (nat_of_ascii p)),
    (Nat.ltb_spec (nat_of_ascii p) 192); cbn [andb orb]; intros Hp;
    try discriminate Hp;
    destruct (Nat.leb_spec 65 (nat_of_ascii x)),
      (Nat.leb_spec (nat_of_ascii x) 90),
      (Nat.leb_spec 192 (nat_of_ascii x)),
      (Nat.leb_spec (nat_of_ascii x) 222),
      (Nat.eqb_spec (nat_of_ascii x) 215),
      (Nat.leb_spec 97 (nat_of_ascii p)),
      (Nat.leb_spec (nat_of_ascii p) 122); cbn [andb orb negb];
    rewrite ?nat_ascii_embedding by lia; lia.
Qed.

Lemma lower_spells (word mid : string) :
  plain_word word = true → lower mid = word ↔ spells word mid.
Proof.
  revert mid. induction word as [|p word IH]; intros [|x mid] Hp; try done.
  cbn [plain_word] in Hp. apply andb_prop in Hp as [Hp Hw].
  cbn [lower spells]. rewrite <- (lower_char_plain _ _ Hp), <- (IH _ Hw).
  split; [by intros [= -> ->]|by intros [-> ->]].
Qed.

(** Containing a plain word once lower-cased is showing it. *)
Lemma occurs_lower (word s : string) :
  plain_word word = true → occurs_in word (lower s) ↔ shows word s.
Proof.
  intros Hp. split.
  - intros (pre & post & H).
    apply lower_app_inv in H as (pre' & rest & -> & _ & H).
    apply lower_app_inv in H as (mid & post' & -> & H & _).
    exists pre', mid, post'. split; [done|]. by apply lower_spells.
  - intros (pre & mid & post & -> & H). apply lower_spells in H; [|done].
    exists (lower pre), (lower post). by rewrite !lower_app, H.
Qed.

Lemma lstrip_inside (s : string) : ∃ a, s = a +:+ lstrip s.
Proof.
  induction s as [|c s [a IH]]; [by exists EmptyString|]. cbn [lstrip].
  destruct (isspace c); [|by exists EmptyString].
  exists (String c a). by rewrite str_app_cons, <- IH.
Qed.

Lemma rstrip_inside (s : string) : ∃ b, s = rstrip s +:+ b.
Proof.
  induction s as [|c s [b IH]]; [by exists EmptyString|]. cbn [rstrip].
  destruct (rstrip s) as [|c' r].
  - destruct (isspace c); [by exists (String c s)|]. exists b.
    by rewrite str_app_cons, <- IH.
  - exists b. by rewrite str_app_cons, <- IH.
Qed.

Lemma strip_inside (s : string) : ∃ a b, s = a +:+ strip s +:+ b.
Proof.
  destruct (lstrip_inside s) as [a Ha].
  destruct (rstrip_inside (lstrip s)) as [b Hb].
  exists a, b. unfold strip. by rewrite <- Hb.
Qed.

Lemma lstrip_keeps (pre : string) (x : ascii) (rest : string) :
  isspace x = false →
  ∃ pre', lstrip (pre +:+ String x rest) = pre' +:+ String x rest.
Proof.
  intros Hx. induction pre as [|c pre IH].
  - exists EmptyString. change (EmptyString +:+ ?s) with s.
    cbn [lstrip]. by rewrite Hx.
  - rewrite str_app_cons. cbn [lstrip].
    destruct (isspace c); [done|]. by exists (String c pre).
Qed.

Lemma rstrip_app_solid (a t : string) :
  rstrip t ≠ EmptyString → rstrip (a +:+ t) = a +:+ rstrip t.
Proof.
  intros Ht. induction a as [|c a IH]; [done|].
  rewrite !str_app_cons. cbn [rstrip]. rewrite IH.
  destruct (a +:+ rstrip t) as [|c' r] eqn:E; [|done].
  destruct a; [|done]. by destruct (rstrip t).
Qed.

Lemma rstrip_app_blank (a t : string) :
  rstrip t = EmptyString → rstrip (a +:+ t) = rstrip a.
Proof.
  intros Ht. induction a as [|c a IH]; [done|].
  rewrite str_app_cons. cbn [rstrip]. by rewrite IH.
Qed.

Lemma rstrip_app_trimmed (a t : string) :
  rstrip a = a → rstrip (a +:+ t) = a +:+ rstrip t.
Proof.
  intros Ha. destruct (rstrip t) as [|c r] eqn:E.
  - by rewrite rstrip_app_blank, str_app_nil_r.
  - rewrite rstrip_app_solid by (by rewrite E). by rewrite E.
Qed.

(** A word whose spellings begin and end with a character that is no
    blank is shown by a text exactly when it is shown by the trimmed
    text. *)
Lemma shows_strip (word s : string) :
  firm word → shows word (strip s) ↔ shows word s.
Proof.
  intros Hf. split.
  - intros (pre & mid & post & H & Hm).
    destruct (strip_inside s) as (a & b & Hs). rewrite H in Hs.
    exists (a +:+ pre), mid, (post +:+ b). split; [|done].
    by rewrite Hs, !str_app_assoc.
  - intros (pre & mid & post & -> & Hm).
    destruct (Hf mid Hm) as [(x & m & -> & Hx) Hr].
    unfold strip. rewrite str_app_cons.
    destruct (lstrip_keeps pre x (m +:+ post) Hx) as [pre' ->].
    exists pre', (String x m), (rstrip post). split; [|done].
    rewrite <- str_app_cons. rewrite rstrip_app_solid.
    + by rewrite rstrip_app_trimmed.
    + rewrite rstrip_app_trimmed by done. by rewrite str_app_cons.
Qed.

Lemma spells_cons (p : ascii) (word mid : string) :
  spells (String p word) mid →
  ∃ x s, mid = String x s ∧ (x = p ∨ x = capital p) ∧ spells word s.
Proof. destruct mid as [|x s]; [done|]. intros [H1 H2]. by exists x, s. Qed.

Lemma spells_nil (mid : string) : spells EmptyString mid → mid = EmptyString.
Proof. by destruct mid. Qed.

Ltac spell H :=
  repeat (let x := fresh "x" in let s := fresh "s" in
          apply spells_cons in H as (x & s & -> & [-> | ->] & H));
  apply spells_nil in H as ->.

Lemma firm_call : firm "call".
Proof.
  intros mid H. spell H; (split; [by eexists _, _|reflexivity]).
Qed.

Lemma firm_join_q : firm "join q".
Proof.
  intros mid H. spell H; (split; [by eexists _, _|reflexivity]).
Qed.

Lemma firm_joinq : firm "joinq".
Proof.
  intros mid H. spell H; (split; [by eexists _, _|reflexivity]).
Qed.

(** What the probe asks of a label, said without [strip] and [lower]. *)
Lemma says_call_shows (text : string) :
  says_call text = true ↔ shows "call" text.
Proof.
  unfold says_call, label.
  by rewrite contains_occurs, occurs_lower, (shows_strip _ _ firm_call).
Qed.

Lemma says_joinq_shows (text : string) :
  says_joinq text = true ↔ shows "join q" text ∨ shows "joinq" text.
Proof.
  unfold says_joinq, label.
  rewrite orb_true_iff, !contains_occurs, !occurs_lower by done.
  by rewrite (shows_strip _ _ firm_join_q), (shows_strip _ _ firm_joinq).
Qed.

End Labels.

(** ** Storage names *)

Section StorageNames.

Import Py.

Lemma replace_slash_cons (c : ascii) (s : string) :
  replace "/" "_" (String c s)
  = String (slash_to_underscore c) (replace "/" "_" s).
Proof.
  unfold replace, slash_to_underscore. cbn [replace_from].
  rewrite prefix_cons, prefix_nil, andb_true_r. cbn [String.length Nat.sub].
  case_bool_decide as E.
  - subst c. done.
  - destruct (Ascii.eqb_spec c "/"); [by subst|done].
Qed.

Lemma replace_slash_app (s t : string) :
  replace "/" "_" (s +:+ t) = replace "/" "_" s +:+ replace "/" "_" t.
Proof.
  induction s as [|c s IH]; [done|].
  by rewrite str_app_cons, !replace_slash_cons, str_app_cons, IH.
Qed.

Lemma replace_slash_id (s : string) :
  free_of "/" s = true → replace "/" "_" s = s.
Proof.
  induction s as [|c s IH]; [done|]. cbn [free_of]. intros H.
  apply andb_prop in H as [Hc Hs]. rewrite replace_slash_cons, (IH Hs).
  unfold slash_to_underscore. by destruct (Ascii.eqb c "/").
Qed.

Lemma replace_slash_inj (a b : string) :
  free_of "_" a = true → free_of "_" b = true →
  replace "/" "_" a = replace "/" "_" b → a = b.
Proof.
  revert b. induction a as [|x a IH]; intros [|y b] Ha Hb H; [done| | |].
  - by rewrite replace_slash_cons in H.
  - by rewrite replace_slash_cons in H.
  - rewrite !replace_slash_cons in H. cbn [free_of] in Ha, Hb.
    apply andb_prop in Ha as [Hx Ha], Hb as [Hy Hb].
    injection H as Hc H. rewrite (IH b Ha Hb H). f_equal.
    unfold slash_to_underscore in Hc.
    destruct (Ascii.eqb_spec x "/"), (Ascii.eqb_spec y "/"),
      (Ascii.eqb_spec x "_"), (Ascii.eqb_spec y "_");
      cbn [negb] in Hx, Hy; congruence.
Qed.

Lemma replace_slash_no_slash (s t : string) :
  String.prefix "/" (replace "/" "_" s +:+ String "." t) = false.
Proof.
  destruct s as [|c s]; [done|].
  rewrite replace_slash_cons, str_app_cons, prefix_cons.
  unfold slash_to_underscore.
  destruct (Ascii.eqb_spec c "/"); case_bool_decide; (congruence || done).
Qed.

(** The first occurrence of the scheme separator is replaced. *)
Lemma replace_scheme (s r : string) :
  free_of ":" s = true →
  replace "://" "_" (s +:+ "://" +:+ r)
  = s +:+ "_" +:+ replace "://" "_" r.
Proof.
  unfold replace. induction s as [|c s IH]; intros H.
  - change (EmptyString +:+ "://" +:+ r)
      with (String ":" (String "/" (String "/" r))).
    cbn [replace_from]. rewrite !prefix_cons, prefix_nil. done.
  - cbn [free_of] in H. apply andb_prop in H as [Hc Hs].
    rewrite (str_app_cons c s). cbn [replace_from]. rewrite prefix_cons.
    case_bool_decide as E.
    + subst c. done.
    + cbn [andb]. by rewrite (IH Hs).
Qed.

Lemma replace_scheme_absent (r : string) :
  contains "://" r = false → replace "://" "_" r = r.
Proof.
  unfold replace. induction r as [|c r IH]; [done|].
  rewrite contains_cons. intros H. apply orb_false_elim in H as [Hp Hr].
  cbn [replace_from]. by rewrite Hp, (IH Hr).
Qed.

Lemma free_of_split (c : ascii) (s1 s2 x y : string) :
  free_of c s1 = true → free_of c s2 = true →
  s1 +:+ String c x = s2 +:+ String c y → s1 = s2 ∧ x = y.
Proof.
  revert s2. induction s1 as [|a s1 IH]; intros [|b s2] H1 H2 H.
  - by injection H as ->.
  - rewrite str_app_cons in H. injection H as <- _. cbn [free_of] in H2.
    by rewrite Ascii.eqb_refl in H2.
  - rewrite str_app_cons in H. injection H as -> _. cbn [free_of] in H1.
    by rewrite Ascii.eqb_refl in H1.
  - rewrite !str_app_cons in H. injection H as -> H. cbn [free_of] in H1, H2.
    apply andb_prop in H1 as [_ H1], H2 as [_ H2].
    destruct (IH s2 H1 H2 H) as [-> ->]. done.
Qed.

Lemma safe_plain (scheme rest : string) :
  plain_url scheme rest →
  safe (scheme +:+ "://" +:+ rest)
  = scheme +:+ "_" +:+ replace "/" "_" rest.
Proof.
  intros (Hc & Hs & _ & _ & Hr). unfold safe.
  rewrite (replace_scheme _ _ Hc), (replace_scheme_absent _ Hr).
  by rewrite replace_slash_app, (replace_slash_id _ Hs).
Qed.

(** Two links share an event file exactly when their safe names agree. *)
Lemma csv_path_eq (u1 u2 : string) :
  csv_path u1 = csv_path u2 ↔ safe u1 = safe u2.
Proof.
  assert (∀ u, csv_path u = DATA_DIR +:+ "/" +:+ safe u +:+ ".csv") as E.
  { intros u. unfold csv_path, path_join, safe.
    by rewrite (replace_slash_no_slash _ "csv"). }
  rewrite !E. split; [|by intros ->].
  intros H. apply (inj (String.app DATA_DIR)) in H.
  apply (inj (String.app "/")) in H. by apply str_app_inv_tail in H.
Qed.

(** C9: on links of the form [scheme://rest], where the scheme holds
    none of [:], [/] and [_] and the rest holds no [_] and no further
    [://], distinct links have distinct event files. *)
Theorem storage_name_injective_on_plain_urls (s1 r1 s2 r2 : string) :
  plain_url s1 r1 → plain_url s2 r2 →
  csv_path (s1 +:+ "://" +:+ r1) = csv_path (s2 +:+ "://" +:+ r2) →
  s1 +:+ "://" +:+ r1 = s2 +:+ "://" +:+ r2.
Proof.
  intros H1 H2 H. apply csv_path_eq in H.
  rewrite !safe_plain in H by done.
  destruct H1 as (_ & _ & U1 & R1 & _), H2 as (_ & _ & U2 & R2 & _).
  apply free_of_split in H as [-> H]; [|done..].
  by rewrite (replace_slash_inj _ _ R1 R2 H).
Qed.


End StorageNames.

(** ** Running the monad *)

Ltac run :=
  unfold mbind, M_bind, bind, mret, M_ret, ret, lift, raise, try_except,
    try_finally, print, sleep, effect in *.

(** ** The page probe *)

Section Probe.

Variable browser : nat → string → session.

Lemma scan_all_readable (texts : list string) (c j : bool) :
  scan (Ok <$> texts) c j
  = Ok (c || existsb says_call texts, j || existsb says_joinq texts).
Proof.
  revert c j. induction texts as [|t texts IH]; intros c j.
  - by rewrite !orb_false_r.
  - cbn [fmap list_fmap scan existsb]. rewrite IH.
    fold (label t). fold (says_call t). fold (says_joinq t).
    destruct (says_call t), (says_joinq t), c, j; reflexivity.
Qed.


Lemma track_once_started (url : string) (w : world) :
  let s := browser (sessions w) url in
  start s = Ok tt →
  track_once browser url w =
    match guarded s with
    | Ok (c, j) => (Ok (Some c, Some j), probed url [] w)
    | Raise e =>
        (Ok (None, None),
         probed url
           [EPrint ("[ERROR] " +:+ url +:+ " - " +:+ exn_name e)] w)
    end.
Proof.
  intros s Hs. unfold track_once, open_session, guarded. run.
  fold s. rewrite Hs. unfold probed, emit. cbn.
  destruct (get s) as [[]|e]; cbn; [|by rewrite <- app_assoc].
  destruct (wait_until s) as [[]|e]; cbn; [|by rewrite <- app_assoc].
  destruct (find_elements s) as [bs|e]; cbn; [|by rewrite <- app_assoc].
  destruct (scan bs false false) as [[c j]|e]; cbn;
    [by rewrite app_nil_r|by rewrite <- app_assoc].
Qed.

Lemma track_once_not_started (url : string) (w : world) (e : exn) :
  start (browser (sessions w) url) = Raise e →
  track_once browser url w
  = (Raise e, {| fs := fs w; trace := trace w; clock_reads := clock_reads w;
                 sessions := S (sessions w) |}).
Proof. intros Hs. unfold track_once, open_session. run. by rewrite Hs. Qed.


(** C5: when the driver starts, the page loads, the buttons are found
    within the bound and the label of every button can be read,
    [track_once] returns both flags, having printed nothing.  The first
    flag is true exactly when the trimmed, lower-cased label of some
    button contains "call", the second exactly when some such label
    contains "join q" or "joinq".  Said of the labels as the page gives
    them: the first flag is true exactly when some label shows the word
    "call", in small letters or capitals, anywhere in it; the second
    exactly when some label shows "join q" or "joinq". *)
Theorem probe_flags_are_disjunctions (url : string) (w : world)
    (texts : list string) :
  start (browser (sessions w) url) = Ok tt →
  get (browser (sessions w) url) = Ok tt →
  wait_until (browser (sessions w) url) = Ok tt →
  find_elements (browser (sessions w) url) = Ok (Ok <$> texts) →
  ∃ c j : bool,
    track_once browser url w = (Ok (Some c, Some j), probed url [] w) ∧
    (c = true ↔ ∃ t, t ∈ texts ∧ occurs_in "call" (label t)) ∧
    (j = true ↔
       ∃ t, t ∈ texts ∧
         (occurs_in "join q" (label t) ∨ occurs_in "joinq" (label t))) ∧
    (c = true ↔ ∃ t, t ∈ texts ∧ shows "call" t) ∧
    (j = true ↔ ∃ t, t ∈ texts ∧ (shows "join q" t ∨ shows "joinq" t)).
Proof.
  intros Hs Hg Hw Hf.
  exists (existsb says_call texts), (existsb says_joinq texts).
  split; [|split_and!].
  - rewrite track_once_started by done. unfold guarded.
    by rewrite Hg, Hw, Hf, scan_all_readable.
  - rewrite existsb_exists. unfold says_call.
    split; intros (t & Ht & Hc); exists t.
    + by rewrite list_elem_of_In, <- contains_occurs.
    + by rewrite <- list_elem_of_In, contains_occurs.
  - rewrite existsb_exists. unfold says_joinq.
    split; intros (t & Ht & Hc); exists t.
    + rewrite list_elem_of_In, <- !contains_occurs.
      by apply orb_prop in Hc.
    + rewrite <- list_elem_of_In. split; [done|].
      rewrite <- !contains_occurs in Hc. by apply orb_true_iff.
  - rewrite existsb_exists.
    split; intros (t & Ht & Hc); exists t.
    + by rewrite list_elem_of_In, <- says_call_shows.
    + by rewrite <- list_elem_of_In, says_call_shows.
  - rewrite existsb_exists.
    split; intros (t & Ht & Hc); exists t.
    + by rewrite list_elem_of_In, <- says_joinq_shows.
    + by rewrite <- list_elem_of_In, says_joinq_shows.
Qed.

End Probe.

(** ** The loop over the links *)

Section Links.

Variable browser : nat → string → session.
Variable clock : nat → datetime.

Lemma append_log_stores (url : string) (c j : bool) (w : world) :
  append_log clock url (Some c) (Some j) w =
    let new := DataFrame_of (observation (clock (clock_reads w)) c j) in
    match event_csv (fs w) !! csv_path url with
    | Some (Unreadable e) => (Raise e, w)
    | found =>
        match write_error (fs w) (csv_path url) with
        | Some e => (Raise e, ticked w)
        | None => (Ok tt, logged url (concat (frame_or_new found) new) w)
        end
    end.
Proof.
  unfold append_log, read_or_new, datetime_now, int_of_flag, to_csv. run.
  destruct (event_csv (fs w) !! csv_path url) as [[e|df]|]; [done|..];
    destruct c, j; cbn [fs];
    by destruct (write_error (fs w) (csv_path url)).
Qed.

Lemma poll_link_cases (url : string) (w : world) :
  let s := browser (sessions w) url in
  poll_link browser clock url w =
    match start s with
    | Ok _ =>
        match guarded s with
        | Ok (c, j) =>
            append_log clock url (Some c) (Some j) (probed url [] w)
        | Raise e =>
            (Ok tt,
             emit
               (EPrint ("[WARN] Skipped logging for " +:+ url
                        +:+ " due to error."))
               (probed url
                  [EPrint ("[ERROR] " +:+ url +:+ " - " +:+ exn_name e)] w))
        end
    | Raise e =>
        (Raise e,
         {| fs := fs w; trace := trace w; clock_reads := clock_reads w;
            sessions := S (sessions w) |})
    end.
Proof.
  intros s. unfold poll_link. unfold mbind at 1. unfold M_bind, bind.
  destruct (start s) as [[]|e] eqn:Hs.
  - rewrite track_once_started by done. fold s.
    destruct (guarded s) as [[c j]|e]; done.
  - by rewrite (track_once_not_started _ _ _ e).
Qed.




(** C4: when the event file of the link is missing or can be read and
    the file system lets it be written, [append_log] returns and adds
    exactly one record behind the stored ones, which stay as they were
    and in their order; a missing file is created with the columns
    [datetime], [Available_For_Call], [On_Call]; no other file
    changes. *)
Theorem append_log_appends_one_record (url : string) (c j : bool)
    (w : world) :
  readable (event_csv (fs w) !! csv_path url) →
  write_error (fs w) (csv_path url) = None →
  ∃ w',
    append_log clock url (Some c) (Some j) w = (Ok tt, w') ∧
    (∀ df, event_csv (fs w) !! csv_path url = Some (Data df) →
       ∃ df', event_csv (fs w') !! csv_path url = Some (Data df') ∧
         rows df' = rows df ++ [observation (clock (clock_reads w)) c j] ∧
         columns df `prefix_of` columns df') ∧
    (event_csv (fs w) !! csv_path url = None →
       event_csv (fs w') !! csv_path url
       = Some (Data {| columns :=
                         ["datetime"; "Available_For_Call"; "On_Call"];
                       rows := [observation (clock (clock_reads w)) c j]
                    |})) ∧
    (∀ p, p ≠ csv_path url →
       event_csv (fs w') !! p = event_csv (fs w) !! p) ∧
    links_txt (fs w') = links_txt (fs w) ∧
    heartbeat_txt (fs w') = heartbeat_txt (fs w).
Proof.
  intros Hr Hw. rewrite append_log_stores. cbn zeta. rewrite Hw.
  destruct (event_csv (fs w) !! csv_path url) as [[e|df]|] eqn:E;
    [by destruct (Hr e)|..];
    eexists; (split; [reflexivity|]); cbn [logged fs event_csv links_txt
      heartbeat_txt frame_or_new]; (split; [|split; [|split; [|done]]]).
  - intros df0 [= <-]. eexists. rewrite lookup_insert_eq.
    split; [reflexivity|]. split; [done|]. by eexists.
  - done.
  - intros p Hp. by rewrite lookup_insert_ne.
  - done.
  - intros _. by rewrite lookup_insert_eq.
  - intros p Hp. by rewrite lookup_insert_ne.
Qed.


End Links.

(** ** The heartbeat file *)

Section Heartbeat.

Lemma read_heartbeat_cases (w : world) :
  read_heartbeat w =
    match heartbeat_txt (fs w) with
    | Some (Data text) =>
        match Py.readlines text !! 0 with
        | Some l0 =>
            match Py.int l0, Py.readlines text !! 1 with
            | Some n, Some l1 => (Ok (n, Some (Py.strip l1)), w)
            | _, _ => (Ok (0%Z, None), w)
            end
        | None => (Ok (0%Z, None), w)
        end
    | Some (Unreadable e) => (Raise e, w)
    | None => (Ok (0%Z, None), w)
    end.
Proof.
  unfold read_heartbeat, open_heartbeat, item. run.
  destruct (heartbeat_txt (fs w)) as [[e|text]|]; [done| |done].
  destruct (Py.readlines text !! 0) as [l0|]; [|done]. cbn.
  destruct (Py.int l0) as [n|]; [|done]. cbn.
  by destruct (Py.readlines text !! 1).
Qed.

(** C8: when the heartbeat file is missing or holds text, reading it
    never raises and leaves the world alone; the answer is (0, None)
    when the file is missing, when it has fewer than two lines and when
    its first line is not an integer, and the parsed count with the
    trimmed second line otherwise. *)
Theorem read_heartbeat_degrades (w : world) :
  readable (heartbeat_txt (fs w)) →
  ∃ v,
    read_heartbeat w = (Ok v, w) ∧
    (heartbeat_txt (fs w) = None → v = (0%Z, None)) ∧
    (∀ text, heartbeat_txt (fs w) = Some (Data text) →
       Py.readlines text !! 1 = None ∨
       (∃ l0, Py.readlines text !! 0 = Some l0 ∧ Py.int l0 = None) →
       v = (0%Z, None)) ∧
    (∀ text l0 l1 n, heartbeat_txt (fs w) = Some (Data text) →
       Py.readlines text !! 0 = Some l0 → Py.int l0 = Some n →
       Py.readlines text !! 1 = Some l1 →
       v = (n, Some (Py.strip l1))).
Proof.
  intros Hr. rewrite read_heartbeat_cases.
  destruct (heartbeat_txt (fs w)) as [[e|text]|]; [by destruct (Hr e)| |].
  - destruct (Py.readlines text !! 0) as [l0|] eqn:E0.
    + destruct (Py.int l0) as [n|] eqn:Ei;
        destruct (Py.readlines text !! 1) as [l1|] eqn:E1;
        eexists; (split; [reflexivity|]);
        (split; [done|]); split.
      * intros ? [= <-] [H|(l & H & Hi)]; [by rewrite E1 in H|].
        rewrite E0 in H. congruence.
      * intros ???? [= <-]. rewrite E0, E1. congruence.
      * done.
      * intros ???? [= <-]. rewrite E1. congruence.
      * done.
      * intros ???? [= <-]. rewrite E0. congruence.
      * done.
      * intros ???? [= <-]. rewrite E1. congruence.
    + eexists. split; [reflexivity|]. split; [done|]. split; [done|].
      intros ???? [= <-]. rewrite E0. congruence.
  - eexists. split; [reflexivity|]. repeat split; done.
Qed.

End Heartbeat.

(** ** The link registry *)

Section Registry.

Import Py.

Lemma load_links_world (w w' : world) (r : result (list string)) :
  load_links w = (r, w') → w' = w.
Proof.
  unfold load_links. destruct (links_txt (fs w)) as [[e|text]|]; congruence.
Qed.


Lemma load_links_text (w : world) (lines : list string) (last : string) :
  Forall (λ l, no_breaks l = true) lines → no_breaks last = true →
  links_txt (fs w) = Some (Data (unlines lines +:+ last)) →
  load_links w
  = (Ok (filter (λ l, l ≠ EmptyString) (strip <$> lines ++ [last])), w).
Proof.
  intros Hl Hlast Hf. unfold load_links. rewrite Hf.
  rewrite readlines_unlines by done. do 2 f_equal.
  rewrite !fmap_app, !filter_app, <- list_fmap_compose. f_equal.
  - f_equal. apply list_fmap_ext. intros _ l _. apply strip_app_LF.
  - case_decide as E; [by subst|done].
Qed.

Lemma readlines_single (u : string) :
  no_breaks u = true → readlines (u +:+ LF) = [u +:+ LF].
Proof. intros H. exact (readlines_line u EmptyString H). Qed.



End Registry.

(** ** Rendering instants *)

Section Rendering.

Lemma compare_digit (a b : nat) :
  Ascii.compare (digit a) (digit b) = (a mod 10 ?= b mod 10).
Proof.
  unfold digit.
  pose proof (Nat.mod_upper_bound a 10 ltac:(lia)) as Ha.
  pose proof (Nat.mod_upper_bound b 10 ltac:(lia)) as Hb.
  destruct (a mod 10) as [|[|[|[|[|[|[|[|[|[|?]]]]]]]]]]; [..|lia];
  destruct (b mod 10) as [|[|[|[|[|[|[|[|[|[|?]]]]]]]]]]; (reflexivity || lia).
Qed.

Lemma compare_two_digits (m n : nat) (s t : string) :
  m < 100 → n < 100 →
  String.compare (pad2 m +:+ s) (pad2 n +:+ t) =
    match m ?= n with
    | Eq => String.compare s t
    | c => c
    end.
Proof.
  intros Hm Hn. unfold pad2. rewrite !str_app_cons. cbn [String.compare].
  rewrite !compare_digit.
  change (EmptyString +:+ s) with s. change (EmptyString +:+ t) with t.
  pose proof (Nat.div_mod_eq m 10). pose proof (Nat.div_mod_eq n 10).
  pose proof (Nat.mod_upper_bound m 10 ltac:(lia)).
  pose proof (Nat.mod_upper_bound n 10 ltac:(lia)).
  assert (m / 10 < 10) by (apply Nat.Div0.div_lt_upper_bound; lia).
  assert (n / 10 < 10) by (apply Nat.Div0.div_lt_upper_bound; lia).
  rewrite (Nat.mod_small (m / 10)), (Nat.mod_small (n / 10)) by done.
  destruct (Nat.compare_spec (m / 10) (n / 10)),
    (Nat.compare_spec (m mod 10) (n mod 10)), (Nat.compare_spec m n);
    (reflexivity || lia).
Qed.

Lemma compare_four_digits (y z : nat) (s t : string) :
  y < 100 * 100 → z < 100 * 100 →
  String.compare (pad4 y +:+ s) (pad4 z +:+ t) =
    match y ?= z with
    | Eq => String.compare s t
    | c => c
    end.
Proof.
  intros Hy Hz. unfold pad4, pad2. rewrite !str_app_cons.
  cbn [String.compare]. rewrite !compare_digit.
  change (EmptyString +:+ s) with s. change (EmptyString +:+ t) with t.
  assert (∀ x, x / 100 = x / 10 / 10 ∧ x / 1000 = x / 10 / 10 / 10) as D.
  { intros x. by rewrite !Nat.Div0.div_div. }
  destruct (D y) as [-> ->], (D z) as [-> ->].
  pose proof (Nat.div_mod_eq y 10). pose proof (Nat.div_mod_eq z 10).
  pose proof (Nat.div_mod_eq (y / 10) 10).
  pose proof (Nat.div_mod_eq (z / 10) 10).
  pose proof (Nat.div_mod_eq (y / 10 / 10) 10).
  pose proof (Nat.div_mod_eq (z / 10 / 10) 10).
  pose proof (Nat.div_mod_eq (y / 10 / 10 / 10) 10).
  pose proof (Nat.div_mod_eq (z / 10 / 10 / 10) 10).
  pose proof (Nat.mod_upper_bound y 10 ltac:(lia)).
  pose proof (Nat.mod_upper_bound z 10 ltac:(lia)).
  pose proof (Nat.mod_upper_bound (y / 10) 10 ltac:(lia)).
  pose proof (Nat.mod_upper_bound (z / 10) 10 ltac:(lia)).
  pose proof (Nat.mod_upper_bound (y / 10 / 10) 10 ltac:(lia)).
  pose proof (Nat.mod_upper_bound (z / 10 / 10) 10 ltac:(lia)).
  pose proof (Nat.mod_upper_bound (y / 10 / 10 / 10) 10 ltac:(lia)).
  pose proof (Nat.mod_upper_bound (z / 10 / 10 / 10) 10 ltac:(lia)).
  destruct (Nat.compare_spec ((y / 10 / 10 / 10) mod 10)
              ((z / 10 / 10 / 10) mod 10)),
    (Nat.compare_spec ((y / 10 / 10) mod 10) ((z / 10 / 10) mod 10)),
    (Nat.compare_spec ((y / 10) mod 10) ((z / 10) mod 10)),
    (Nat.compare_spec (y mod 10) (z mod 10)), (Nat.compare_spec y z);
    (reflexivity || lia).
Qed.

Lemma compare_separator (c : ascii) (s t : string) :
  String.compare (String c EmptyString +:+ s) (String c EmptyString +:+ t)
  = String.compare s t.
Proof.
  rewrite !str_app_cons. cbn [String.compare]. unfold Ascii.compare.
  by rewrite N.compare_refl.
Qed.

(** Rendered instants compare as their fields down to the second. *)
Lemma strftime_compare (a b : datetime) :
  valid_datetime a → valid_datetime b →
  String.compare (strftime a) (strftime b)
  = lex (take 6 (fields a)) (take 6 (fields b)).
Proof.
  intros (Hy & Hm & Hd & HH & HM & HS & _).
  intros (Hy' & Hm' & Hd' & HH' & HM' & HS' & _).
  unfold strftime, fields. cbn [take lex].
  rewrite compare_four_digits by lia.
  destruct (year a ?= year b); [|done..]. rewrite compare_separator.
  rewrite compare_two_digits by lia.
  destruct (month a ?= month b); [|done..]. rewrite compare_separator.
  rewrite compare_two_digits by lia.
  destruct (day a ?= day b); [|done..]. rewrite compare_separator.
  rewrite compare_two_digits by lia.
  destruct (hour a ?= hour b); [|done..]. rewrite compare_separator.
  rewrite compare_two_digits by lia.
  destruct (minute a ?= minute b); [|done..]. rewrite compare_separator.
  rewrite <- (str_app_nil_r (pad2 (second a))).
  rewrite <- (str_app_nil_r (pad2 (second b))).
  rewrite compare_two_digits by lia.
  by destruct (second a ?= second b).
Qed.

(** The rendering is monotone. *)
Lemma strftime_mono (a b : datetime) :
  valid_datetime a → valid_datetime b → datetime_le a b →
  (strftime a ≤ strftime b)%string.
Proof.
  intros Ha Hb Hle. unfold String.le, String.leb.
  rewrite strftime_compare by done.
  unfold datetime_le, fields in Hle. cbn [lex] in Hle. unfold fields.
  cbn [take lex].
  destruct (year a ?= year b); [|done..].
  destruct (month a ?= month b); [|done..].
  destruct (day a ?= day b); [|done..].
  destruct (hour a ?= hour b); [|done..].
  destruct (minute a ?= minute b); [|done..].
  by destruct (second a ?= second b).
Qed.


Lemma digit_plain (d : nat) :
  Py.isspace (digit d) = false ∧ Ascii.eqb (digit d) "010" = false ∧
  Ascii.eqb (digit d) "013" = false.
Proof.
  unfold digit. pose proof (Nat.mod_upper_bound d 10 ltac:(lia)) as H.
  destruct (d mod 10) as [|[|[|[|[|[|[|[|[|[|?]]]]]]]]]]; [done..|lia].
Qed.

Lemma strftime_no_breaks (t : datetime) : no_breaks (strftime t) = true.
Proof.
  unfold strftime, pad4, pad2, no_breaks.
  repeat (rewrite str_app_cons || change (EmptyString +:+ ?s) with s).
  cbn [free_of].
  repeat match goal with
         | |- context [Ascii.eqb (digit ?d) _] =>
             destruct (digit_plain d) as (_ & -> & ->)
         end.
  reflexivity.
Qed.

Lemma strip_strftime (t : datetime) : Py.strip (strftime t) = strftime t.
Proof.
  unfold strftime, pad4, pad2, Py.strip.
  repeat (rewrite str_app_cons || change (EmptyString +:+ ?s) with s).
  cbn [Py.lstrip]. destruct (digit_plain (year t / 1000)) as (-> & _ & _).
  cbn [Py.rstrip]. by destruct (digit_plain (second t)) as (-> & _ & _).
Qed.


Lemma int_digits_uint (d : Decimal.uint) (acc : nat) (prev : bool) :
  Py.int_digits (Z.of_nat acc) prev (NilEmpty.string_of_uint d) =
    match d with
    | Decimal.Nil => if prev then Some (Z.of_nat acc) else None
    | _ => Some (Z.of_nat (Nat.of_uint_acc d acc))
    end.
Proof.
  revert acc prev.
  induction d as [|d IH|d IH|d IH|d IH|d IH|d IH|d IH|d IH|d IH|d IH];
    intros acc prev; [done|..];
    cbn [NilEmpty.string_of_uint Py.int_digits Nat.of_uint_acc];
    match goal with
    | |- context [Py.digit_of ?c] =>
        let v := eval vm_compute in (Py.digit_of c) in
        change (Py.digit_of c) with v
    end; cbn match;
    match goal with
    | |- context [Nat.of_uint_acc d ?a] =>
        match goal with
        | |- context [Py.int_digits ?z true _] =>
            replace z with (Z.of_nat a)
              by (rewrite Nat.tail_mul_spec; lia)
        end
    end; rewrite IH; by destruct d.
Qed.

Lemma strip_uint (d : Decimal.uint) :
  Py.strip (NilEmpty.string_of_uint d) = NilEmpty.string_of_uint d.
Proof.
  unfold Py.strip.
  assert (Py.lstrip (NilEmpty.string_of_uint d) = NilEmpty.string_of_uint d)
    as -> by (by destruct d).
  induction d as [|d IH|d IH|d IH|d IH|d IH|d IH|d IH|d IH|d IH|d IH];
    [done|..]; cbn [NilEmpty.string_of_uint Py.rstrip]; rewrite IH;
    by destruct (NilEmpty.string_of_uint d).
Qed.

Lemma int_rstrip_app_LF (s : string) :
  Py.int_rstrip (s +:+ Py.LF) = Py.int_rstrip s.
Proof.
  induction s as [|c s IH]; [done|]. rewrite str_app_cons.
  cbn [Py.int_rstrip]. by rewrite IH.
Qed.

Lemma int_rstrip_uint (d : Decimal.uint) :
  Py.int_rstrip (NilEmpty.string_of_uint d) = NilEmpty.string_of_uint d.
Proof.
  induction d as [|d IH|d IH|d IH|d IH|d IH|d IH|d IH|d IH|d IH|d IH];
    [done|..]; cbn [NilEmpty.string_of_uint Py.int_rstrip]; rewrite IH;
    by destruct (NilEmpty.string_of_uint d).
Qed.

Lemma digit_count_uint (d : Decimal.uint) :
  Py.digit_count (NilEmpty.string_of_uint d)
  = String.length (NilEmpty.string_of_uint d).
Proof.
  induction d as [|d IH|d IH|d IH|d IH|d IH|d IH|d IH|d IH|d IH|d IH];
    [done|..]; cbn [NilEmpty.string_of_uint Py.digit_count String.length];
    by rewrite IH.
Qed.

Lemma int_body_uint (d : Decimal.uint) :
  d ≠ Decimal.Nil →
  String.length (NilEmpty.string_of_uint d) ≤ Py.MAX_STR_DIGITS →
  Py.int_body (NilEmpty.string_of_uint d) = Some (Z.of_nat (Nat.of_uint d)).
Proof.
  intros Hd Hlen. unfold Py.int_body. rewrite digit_count_uint.
  destruct (Nat.ltb_spec Py.MAX_STR_DIGITS
              (String.length (NilEmpty.string_of_uint d))); [lia|].
  rewrite (int_digits_uint _ 0 false). by destruct d.
Qed.

(** [int(str(n))] gives [n] back, also with the line feed behind, as
    long as [n] has no more digits than [int] accepts. *)
Lemma int_str (n : nat) :
  String.length (Py.str n) ≤ Py.MAX_STR_DIGITS →
  Py.int (Py.str n +:+ Py.LF) = Some (Z.of_nat n).
Proof.
  unfold Py.str, NilZero.string_of_uint. intros Hlen.
  pose proof (DecimalNat.Unsigned.of_to n) as Hn.
  destruct (Nat.to_uint n) as [|d|d|d|d|d|d|d|d|d|d] eqn:E.
  { cbn in Hn. subst n. by vm_compute. }
  all: rewrite <- Hn; rewrite <- int_body_uint by done; unfold Py.int;
    cbn [NilEmpty.string_of_uint]; rewrite str_app_cons;
    cbn [Py.int_lstrip Py.int_space]; rewrite <- str_app_cons;
    match goal with
    | |- context [String ?c (NilEmpty.string_of_uint ?d0)] =>
        match type of E with
        | _ = ?d1 =>
            change (String c (NilEmpty.string_of_uint d0))
              with (NilEmpty.string_of_uint d1)
        end
    end;
    rewrite int_rstrip_app_LF, int_rstrip_uint;
    by cbn [NilEmpty.string_of_uint].
Qed.

Lemma str_no_breaks (n : nat) : no_breaks (Py.str n) = true.
Proof.
  unfold Py.str, NilZero.string_of_uint.
  assert (∀ d, no_breaks (NilEmpty.string_of_uint d) = true) as H.
  { unfold no_breaks.
    induction d as [|d IH|d IH|d IH|d IH|d IH|d IH|d IH|d IH|d IH|d IH];
      [done|..]; cbn [NilEmpty.string_of_uint free_of];
      apply andb_prop in IH as [-> ->]; done. }
  by destruct (Nat.to_uint n).
Qed.


End Rendering.

(** ** The scheduler *)

Section Scheduler.

Variable browser : nat → string → session.
Variable clock : nat → datetime.

Lemma heartbeats_app (tr tr' : list event) :
  heartbeats (tr ++ tr') = heartbeats tr ++ heartbeats tr'.
Proof.
  induction tr as [|e tr IH]; [done|]. destruct e; cbn; by rewrite ?IH.
Qed.

Lemma quiet_refl (w : world) : quiet w w.
Proof. by repeat split. Qed.

Lemma quiet_trans (w1 w2 w3 : world) : quiet w1 w2 → quiet w2 w3 → quiet w1 w3.
Proof.
  intros (A1 & B1 & C1 & D1 & E1) (A2 & B2 & C2 & D2 & E2).
  repeat split; [congruence..|lia|congruence].
Qed.

Lemma poll_link_quiet (url : string) (w w1 : world) (r : result unit) :
  (poll_link browser clock) url w = (r, w1) → quiet w w1.
Proof.
  rewrite poll_link_cases.
  destruct (start (browser (sessions w) url)) as [[]|e].
  - destruct (guarded (browser (sessions w) url)) as [[c j]|e].
    + rewrite append_log_stores. cbn zeta.
      destruct (event_csv (fs (probed url [] w)) !! csv_path url)
        as [[e|df]|];
        [|destruct (write_error (fs (probed url [] w)) (csv_path url))..];
        intros [= <- <-]; unfold quiet; cbn;
        rewrite ?heartbeats_app; cbn; rewrite ?app_nil_r;
        split_and!; (done || lia).
    + intros [= <- <-]. unfold quiet. cbn. rewrite !heartbeats_app. cbn.
      rewrite !app_nil_r. split_and!; (done || lia).
  - intros [= <- <-]. unfold quiet. cbn. split_and!; (done || lia).
Qed.

Lemma for_each_quiet (links : list string) (w w1 : world) (r : result unit) :
  for_each links (poll_link browser clock) w = (r, w1) → quiet w w1.
Proof.
  revert w. induction links as [|url links IH]; intros w.
  - intros [= <- <-]. apply quiet_refl.
  - cbn [for_each]. run. destruct ((poll_link browser clock) url w) as [[[]|e] w0] eqn:E.
    + intros H. eapply quiet_trans; [by eapply poll_link_quiet|by apply IH].
    + intros [= <- <-]. by eapply poll_link_quiet.
Qed.

(** A turn of the loop of [background_tracker]: the links are loaded
    and polled, then the heartbeat is written, unless the file system
    refuses. *)
Lemma cycle_cases (count : nat) (w : world) :
  cycle browser clock count w =
    match load_links w with
    | (Ok links, _) =>
        match for_each links (poll_link browser clock) w with
        | (Ok _, w1) =>
            match write_error (fs w1) HEARTBEAT_FILE with
            | Some e => (Raise e, ticked w1)
            | None =>
                (Ok (count + 1),
                 completed (count + 1) (clock (clock_reads w1)) w1)
            end
        | (Raise e, w1) => (Raise e, w1)
        end
    | (Raise e, _) => (Raise e, w)
    end.
Proof.
  unfold cycle. run. destruct (load_links w) as [[links|e] w0] eqn:E;
    apply load_links_world in E as ->; [|done].
  destruct (for_each links (poll_link browser clock) w) as [[[]|e] w1]; [|done].
  unfold datetime_now, write_heartbeat, completed, ticked, emit, with_fs,
    heartbeat_text. cbn [fs trace clock_reads sessions].
  destruct (write_error (fs w1) HEARTBEAT_FILE); [done|].
  cbn. by rewrite <- !app_assoc.
Qed.

Lemma cycles_succ (n count : nat) (w : world) :
  cycles browser clock (S n) count w =
    match cycles browser clock n count w with
    | (Ok c, w') => cycle browser clock c w'
    | (Raise e, w') => (Raise e, w')
    end.
Proof.
  revert count w. induction n as [|n IH]; intros count w.
  - cbn [cycles]. run. by destruct (cycle browser clock count w) as [[c|e] w'].
  - change (cycles browser clock (S (S n)) count w)
      with (bind (cycle browser clock count) (cycles browser clock (S n)) w).
    change (cycles browser clock (S n) count w)
      with (bind (cycle browser clock count) (cycles browser clock n) w).
    unfold bind. destruct (cycle browser clock count w) as [[c|e] w']; [|done].
    apply IH.
Qed.

Lemma cycle_completes (count : nat) (w w' : world) (c : nat) :
  cycle browser clock count w = (Ok c, w') →
  ∃ links w1,
    load_links w = (Ok links, w) ∧
    for_each links (poll_link browser clock) w = (Ok tt, w1) ∧
    quiet w w1 ∧
    write_error (fs w1) HEARTBEAT_FILE = None ∧
    c = S count ∧
    w' = completed (S count) (clock (clock_reads w1)) w1.
Proof.
  rewrite cycle_cases.
  destruct (load_links w) as [[links|e] w0] eqn:El; [|done].
  pose proof (load_links_world _ _ _ El) as ->.
  destruct (for_each links (poll_link browser clock) w)
    as [[[]|e] w1] eqn:E; [|done].
  destruct (write_error (fs w1) HEARTBEAT_FILE) eqn:Ew; [done|].
  replace (count + 1) with (S count) by lia. intros [= <- <-].
  exists links, w1. split_and!; try done. by eapply for_each_quiet.
Qed.

(** The heartbeats of [n] cycles: the counts follow [count], the times
    are readings of the clock taken in order. *)
Lemma cycles_heartbeats (n count : nat) (w w' : world) (c : nat) :
  cycles browser clock n count w = (Ok c, w') →
  c = count + n ∧
  ∃ reads : list nat,
    heartbeats (trace w')
    = heartbeats (trace w)
      ++ zip (seq (S count) n) ((strftime ∘ clock) <$> reads) ∧
    length reads = n ∧
    StronglySorted lt reads ∧
    Forall (λ r, clock_reads w ≤ r < clock_reads w') reads ∧
    clock_reads w ≤ clock_reads w'.
Proof.
  revert count w. induction n as [|n IH]; intros count w.
  - intros [= <- <-]. split; [lia|]. exists []. rewrite app_nil_r.
    repeat split; (done || constructor).
  - cbn [cycles]. unfold mbind, M_bind, bind.
    destruct (cycle browser clock count w) as [[c1|e] w0] eqn:Ec; [|done].
    apply cycle_completes in Ec
      as (links & w1 & _ & _ & (_ & _ & Hh & Hc & _) & _ & -> & ->).
    intros H. apply IH in H as (-> & reads & Ht & Hl & Hs & Hr & Hc').
    cbn [completed clock_reads trace] in *. split; [lia|].
    exists (clock_reads w1 :: reads).
    rewrite Ht, heartbeats_app, Hh. cbn [heartbeats].
    rewrite <- app_assoc. repeat split.
    + cbn. lia.
    + constructor; [done|]. eapply Forall_impl; [exact Hr|]. cbn. lia.
    + constructor; [lia|]. eapply Forall_impl; [exact Hr|]. cbn. lia.
    + lia.
Qed.

Lemma sorted_times (reads : list nat) :
  (∀ i, valid_datetime (clock i)) →
  (∀ i j, i ≤ j → datetime_le (clock i) (clock j)) →
  StronglySorted lt reads →
  StronglySorted String.le ((strftime ∘ clock) <$> reads).
Proof.
  intros Hv Hm Hs. induction Hs as [|r reads _ IH Hr]; [constructor|].
  cbn [fmap list_fmap]. constructor; [done|].
  apply Forall_fmap. eapply Forall_impl; [exact Hr|].
  intros r' Hlt. cbn. apply strftime_mono; [done..|]. apply Hm. lia.
Qed.

(** What a completed cycle wrote is what [read_heartbeat] answers. *)
Lemma read_heartbeat_completed (count : nat) (now : datetime) (w : world) :
  String.length (Py.str count) ≤ Py.MAX_STR_DIGITS →
  read_heartbeat (completed count now w)
  = (Ok (Z.of_nat count, Some (strftime now)), completed count now w).
Proof.
  intros Hlen. rewrite read_heartbeat_cases. cbn [completed fs heartbeat_txt].
  unfold heartbeat_text. rewrite readlines_line by apply str_no_breaks.
  rewrite readlines_single by apply strftime_no_breaks.
  cbn [lookup list_lookup].
  by rewrite int_str, strip_app_LF, strip_strftime.
Qed.

Lemma cycles_prefix (n k count : nat) (w w' : world) (c : nat) :
  cycles browser clock n count w = (Ok c, w') → k ≤ n →
  ∃ wk, cycles browser clock k count w = (Ok (count + k), wk).
Proof.
  intros H Hk. induction n as [|n IH] in c, w', H, Hk |- *.
  - replace k with 0 by lia. exists w. by rewrite Nat.add_0_r.
  - destruct (decide (k = S n)) as [->|Hne].
    + exists w'. rewrite H. by apply cycles_heartbeats in H as [-> _].
    + rewrite cycles_succ in H.
      destruct (cycles browser clock n count w) as [[c0|e] w0] eqn:E;
        [|done].
      eapply IH; [done|lia].
Qed.







(** C3: in a run of [n] completed cycles the heartbeat is written [n]
    times, with the counts 1 to [n] in this order; in every cycle of the
    run the one write comes after the loop over all the links, during
    which none happens, and puts the count and the time of that cycle
    into the file.  The written times never decrease provided that the
    wall clock, read by [datetime.now()], never goes back. *)
Theorem heartbeat_once_per_cycle (n : nat) (w w' : world) (c : nat) :
  background_tracker browser clock n w = (Ok c, w') →
  ∃ hs : list (nat * string),
    heartbeats (trace w') = heartbeats (trace w) ++ hs ∧
    hs.*1 = seq 1 n ∧
    ((∀ i, valid_datetime (clock i)) →
     (∀ i j, i ≤ j → datetime_le (clock i) (clock j)) →
     StronglySorted String.le (hs.*2)) ∧
    ∀ k, k < n →
      ∃ wk links w1,
        background_tracker browser clock k w = (Ok k, wk) ∧
        load_links wk = (Ok links, wk) ∧
        for_each links (poll_link browser clock) wk = (Ok tt, w1) ∧
        heartbeats (trace w1) = heartbeats (trace wk) ∧
        heartbeat_txt (fs w1) = heartbeat_txt (fs wk) ∧
        background_tracker browser clock (S k) w
        = (Ok (S k), completed (S k) (clock (clock_reads w1)) w1).
Proof.
  intros H. unfold background_tracker in *.
  destruct (cycles_heartbeats _ _ _ _ _ H)
    as (_ & reads & Ht & Hl & Hs & _ & _).
  exists (zip (seq 1 n) ((strftime ∘ clock) <$> reads)).
  split; [done|]. split; [|split].
  - apply fst_zip. rewrite length_fmap, length_seq. lia.
  - intros Hv Hm. rewrite snd_zip by (rewrite length_fmap, length_seq; lia).
    by apply sorted_times.
  - intros k Hk.
    destruct (cycles_prefix _ k _ _ _ _ H ltac:(lia)) as [wk Ek].
    destruct (cycles_prefix _ (S k) _ _ _ _ H ltac:(lia)) as [wk' Ek'].
    pose proof Ek' as Ec. rewrite cycles_succ, Ek in Ec. cbn in Ek, Ek'.
    apply cycle_completes in Ec
      as (links & w1 & El & Ef & (_ & Hb & Hq & _) & _ & _ & ->).
    exists wk, links, w1. by split_and!.
Qed.

(** C7: [load_links] returns the one default link when the file is
    missing; when the file holds text it does not raise and returns the
    lines of the file in their order, trimmed, without the blank ones;
    when the file cannot be read the error is raised to the caller, and
    the cycle of the scheduler that called it raises too. *)
Theorem load_links_returns (w : world) :
  (links_txt (fs w) = None → load_links w = (Ok [DEFAULT_LINK], w)) ∧
  (∀ text, links_txt (fs w) = Some (Data text) →
     load_links w
     = (Ok (filter (λ l, l ≠ EmptyString) (Py.strip <$> Py.readlines text)),
        w)) ∧
  (∀ lines last,
     Forall (λ l, no_breaks l = true) lines → no_breaks last = true →
     links_txt (fs w) = Some (Data (unlines lines +:+ last)) →
     load_links w
     = (Ok (filter (λ l, l ≠ EmptyString) (Py.strip <$> lines ++ [last])),
        w)) ∧
  (∀ e, links_txt (fs w) = Some (Unreadable e) →
     load_links w = (Raise e, w) ∧
     ∀ count, cycle browser clock count w = (Raise e, w)).
Proof.
  split_and!.
  - intros H. unfold load_links. by rewrite H.
  - intros text H. unfold load_links. by rewrite H.
  - apply load_links_text.
  - intros e H.
    assert (load_links w = (Raise e, w)) as E
      by (unfold load_links; by rewrite H).
    split; [done|]. intros count. by rewrite cycle_cases, E.
Qed.

(** Nothing before the write at the end of a cycle looks at the
    heartbeat file. *)
Lemma poll_link_blind (hb : option (stored string)) (url : string)
    (w : world) :
  poll_link browser clock url (with_heartbeat hb w)
  = (fst (poll_link browser clock url w),
     with_heartbeat hb (snd (poll_link browser clock url w))).
Proof.
  rewrite !poll_link_cases.
  change (sessions (with_heartbeat hb w)) with (sessions w).
  destruct (start (browser (sessions w) url)) as [[]|e]; [|done].
  destruct (guarded (browser (sessions w) url)) as [[c j]|e]; [|done].
  rewrite !append_log_stores. cbn zeta.
  change (event_csv (fs (probed url [] (with_heartbeat hb w))))
    with (event_csv (fs (probed url [] w))).
  change (write_error (fs (probed url [] (with_heartbeat hb w))))
    with (write_error (fs (probed url [] w))).
  destruct (event_csv (fs (probed url [] w)) !! csv_path url)
    as [[e|df]|]; [done|..];
    by destruct (write_error (fs (probed url [] w)) (csv_path url)).
Qed.

Lemma for_each_blind (hb : option (stored string)) (links : list string)
    (w : world) :
  for_each links (poll_link browser clock) (with_heartbeat hb w)
  = (fst (for_each links (poll_link browser clock) w),
     with_heartbeat hb (snd (for_each links (poll_link browser clock) w))).
Proof.
  revert w. induction links as [|url links IH]; intros w; [done|].
  cbn [for_each]. run. rewrite poll_link_blind.
  destruct (poll_link browser clock url w) as [[[]|e] w1]; [|done].
  apply IH.
Qed.

Lemma cycle_blind (hb : option (stored string)) (count : nat) (w : world) :
  cycle browser clock count (with_heartbeat hb w) =
    match cycle browser clock count w with
    | (Ok c, w') => (Ok c, w')
    | (Raise e, w') => (Raise e, with_heartbeat hb w')
    end.
Proof.
  rewrite !cycle_cases.
  change (load_links (with_heartbeat hb w))
    with (match links_txt (fs w) with
          | Some (Data text) =>
              (Ok (filter (λ l, l ≠ EmptyString)
                     (Py.strip <$> Py.readlines text)),
               with_heartbeat hb w)
          | Some (Unreadable e) => (Raise e, with_heartbeat hb w)
          | None => (Ok [DEFAULT_LINK], with_heartbeat hb w)
          end).
  unfold load_links.
  destruct (links_txt (fs w)) as [[e|text]|]; [done|..];
    rewrite for_each_blind;
    destruct (for_each _ (poll_link browser clock) w) as [[[]|e] w1];
    try done; cbn [fst snd];
    change (write_error (fs (with_heartbeat hb w1)))
      with (write_error (fs w1));
    by destruct (write_error (fs w1) HEARTBEAT_FILE).
Qed.

(** A run of at least one cycle from a world with the heartbeat [hb]
    ends as the run from the world itself does, but for the heartbeat
    file when the first cycle raises. *)
Lemma cycles_blind (hb : option (stored string)) (n : nat) (w : world) :
  cycles browser clock (S n) 0 (with_heartbeat hb w) =
    match cycle browser clock 0 w with
    | (Ok c, w') => cycles browser clock n c w'
    | (Raise e, w') => (Raise e, with_heartbeat hb w')
    end.
Proof.
  cbn [cycles]. unfold mbind, M_bind, bind.
  rewrite cycle_blind. by destruct (cycle browser clock 0 w) as [[?|?] ?].
Qed.

(** C10: the scheduler counts from 0 whenever the process starts and
    never looks at the heartbeat file.  Whatever readable heartbeat [hb]
    was persisted before, a run that completes its cycles returns their
    number; it returns the same count and ends in the same world as the
    run from any other readable heartbeat [hb'] that completes; and
    after its first cycle the file holds the count 1, which is what
    [read_heartbeat] then answers. *)
Theorem restart_forgets_heartbeat (hb : option (stored string)) (n : nat)
    (w w' : world) (c : nat) :
  readable hb →
  background_tracker browser clock (S n) (with_heartbeat hb w) = (Ok c, w') →
  c = S n ∧
  (∀ hb' c' w'',
     readable hb' →
     background_tracker browser clock (S n) (with_heartbeat hb' w)
     = (Ok c', w'') →
     c' = c ∧ w'' = w') ∧
  ∃ w1 now,
    background_tracker browser clock 1 (with_heartbeat hb w) = (Ok 1, w1) ∧
    heartbeat_txt (fs w1)
    = Some (Data (heartbeat_text 1 (strftime now))) ∧
    read_heartbeat w1 = (Ok (1%Z, Some (strftime now)), w1).
Proof.
  unfold background_tracker. intros _ H.
  split; [by apply cycles_heartbeats in H as [-> _]|].
  rewrite cycles_blind in H. split.
  - intros hb' c' w'' _. rewrite cycles_blind.
    destruct (cycle browser clock 0 w) as [[c1|e] w1]; [|done].
    rewrite H. by intros [= <- <-].
  - rewrite cycles_blind.
    destruct (cycle browser clock 0 w) as [[c1|e] w1] eqn:Ec; [|done].
    apply cycle_completes in Ec as (links & w0 & _ & _ & _ & _ & -> & ->).
    exists (completed 1 (clock (clock_reads w0)) w0),
      (clock (clock_reads w0)).
    split; [done|]. split; [done|].
    apply (read_heartbeat_completed 1). apply Nat.leb_le. by vm_compute.
Qed.


End Scheduler.

(** * The properties on sample runs *)

Lemma tick_valid (i : nat) : valid_datetime (tick i).
Proof.
  unfold valid_datetime, tick.
  cbn [year month day hour minute second microsecond]. lia.
Qed.

Lemma tick_mono (i j : nat) : i ≤ j → datetime_le (tick i) (tick j).
Proof.
  intros H. unfold datetime_le, fields, tick. cbn.
  destruct (Nat.compare_spec (Nat.min i 59) (Nat.min j 59)); (done || lia).
Qed.

Lemma autumn_clock_valid (i : nat) : valid_datetime (autumn_clock i).
Proof.
  unfold valid_datetime, autumn_clock.
  cbn [year month day hour minute second microsecond].
  destruct (i <? 2); lia.
Qed.




(** Counterexample to C3 as stated: in the night in which summer time
    ends, the first cycle ends at 01:59:30 and the second, a minute
    later, at 01:00:30 of the repeated hour: the run completes, the
    counts go up, and the second written time is before the first. *)
Lemma heartbeat_time_goes_back :
  (∀ i, valid_datetime (autumn_clock i)) ∧
  fst (background_tracker a_up_b_down autumn_clock 2 (boot two_links))
  = Ok 2 ∧
  heartbeats
    (trace (snd (background_tracker a_up_b_down autumn_clock 2
                   (boot two_links))))
  = [(1, "2024-11-03 01:59:30"%string); (2, "2024-11-03 01:00:30"%string)] ∧
  heartbeat_txt
    (fs (snd (background_tracker a_up_b_down autumn_clock 2
                (boot two_links))))
  = Some (Data (heartbeat_text 2 "2024-11-03 01:00:30")) ∧
  ¬ ("2024-11-03 01:59:30" ≤ "2024-11-03 01:00:30")%string.
Proof.
  split; [apply autumn_clock_valid|]. split_and!; [by vm_compute..|].
  by vm_compute.
Qed.

Lemma heartbeat_once_per_cycle_witness :
  ∃ hs : list (nat * string),
    heartbeats
      (trace (snd (background_tracker a_up_b_down tick 2 (boot two_links))))
    = heartbeats (trace (boot two_links)) ++ hs ∧
    hs.*1 = seq 1 2 ∧
    StronglySorted String.le (hs.*2).
Proof.
  destruct (heartbeat_once_per_cycle a_up_b_down tick 2 (boot two_links)
              (snd (background_tracker a_up_b_down tick 2 (boot two_links)))
              2) as (hs & E & Hc & Ht & _).
  - vm_compute. reflexivity.
  - exists hs. split; [exact E|]. split; [exact Hc|].
    apply Ht; [apply tick_valid|apply tick_mono].
Defined.

(** Counterexample to C4 as stated: the columns of a new event file are
    spelled with capitals; and for a link whose storage name is longer
    than the file system allows, the append raises and stores
    nothing. *)
Lemma created_header_is_capitalised :
  fst (append_log tick "A" (Some true) (Some false) (boot empty_disk))
  = Ok tt ∧
  event_csv
    (fs (snd (append_log tick "A" (Some true) (Some false)
                (boot empty_disk))))
  !! csv_path "A"
  = Some (Data {| columns := ["datetime"; "Available_For_Call"; "On_Call"];
                  rows := [observation (tick 0) true false] |}) ∧
  ["datetime"; "Available_For_Call"; "On_Call"]
  ≠ ["datetime"; "available_for_call"; "on_call"] ∧
  String.length long_link = 314 ∧
  fst (append_log tick long_link (Some true) (Some false) (boot empty_disk))
  = Raise OSError ∧
  event_csv
    (fs (snd (append_log tick long_link (Some true) (Some false)
                (boot empty_disk))))
  = ∅.
Proof. split_and!; (discriminate || by vm_compute). Qed.

Lemma append_log_appends_one_record_witness :
  (∃ w' df',
     append_log tick "A" (Some true) (Some false) (boot a_logged)
     = (Ok tt, w') ∧
     event_csv (fs w') !! csv_path "A" = Some (Data df') ∧
     rows df' = [old_row] ++ [observation (tick 0) true false]) ∧
  (∃ w',
     append_log tick "A" (Some true) (Some false) (boot empty_disk)
     = (Ok tt, w') ∧
     event_csv (fs w') !! csv_path "A"
     = Some (Data {| columns :=
                       ["datetime"; "Available_For_Call"; "On_Call"];
                     rows := [observation (tick 0) true false] |})).
Proof.
  split.
  - destruct (append_log_appends_one_record tick "A" true false
                (boot a_logged)) as (w' & E & Hold & _).
    + intros e. vm_compute. discriminate.
    + reflexivity.
    + destruct (Hold _ eq_refl) as (df' & Ef & Hrows & _).
      exists w', df'. split; [exact E|]. split; [exact Ef|exact Hrows].
  - destruct (append_log_appends_one_record tick "A" true false
                (boot empty_disk)) as (w' & E & _ & Hnew & _).
    + intros e. vm_compute. discriminate.
    + reflexivity.
    + exists w'. split; [exact E|]. apply Hnew. reflexivity.
Defined.

(** Counterexample to C5 as stated: the buttons are found within the
    bound and the first label says "Call Now", but the second button is
    redrawn before its label is read: the probe returns neither flag. *)
Lemma unreadable_label_gives_no_flags :
  start page_redrawn = Ok tt ∧ get page_redrawn = Ok tt ∧
  wait_until page_redrawn = Ok tt ∧
  find_elements page_redrawn
  = Ok [Ok " Call Now "%string; Raise StaleElementReferenceException] ∧
  says_call " Call Now " = true ∧
  fst (track_once (λ _ _, page_redrawn) "A" (boot empty_disk))
  = Ok (None, None).
Proof. by vm_compute. Qed.

Lemma probe_flags_are_disjunctions_witness :
  track_once (λ _ _, page [" Call Now "; "Chat"]) "A" (boot empty_disk)
  = (Ok (Some true, Some false), probed "A" [] (boot empty_disk)) ∧
  (∃ t, t ∈ [" Call Now "; "Chat"] ∧ shows "call" t) ∧
  ¬ (∃ t, t ∈ [" Call Now "; "Chat"] ∧ (shows "join q" t ∨ shows "joinq" t)).
Proof.
  destruct (probe_flags_are_disjunctions
              (λ _ _, page [" Call Now "; "Chat"]) "A" (boot empty_disk)
              [" Call Now "; "Chat"]) as (c & j & E & _ & _ & Hc & Hj);
    [reflexivity..|].
  assert (c = true ∧ j = false) as [-> ->].
  { vm_compute in E. by injection E as <- <-. }
  split; [exact E|]. split; [by apply Hc|].
  intros H. apply Hj in H. discriminate H.
Defined.

(** The label that the probe inspects is the text in small letters
    without the blanks around it. *)
Lemma label_sample : label "  Call NOW " = "call now".
Proof. reflexivity. Qed.



(** Counterexample to C7 as stated: a link list file that cannot be
    read makes [load_links] raise, and the cycle with it. *)
Lemma unreadable_registry_raises :
  load_links (boot unreadable_links)
  = (Raise OSError, boot unreadable_links) ∧
  cycle a_up_b_down tick 0 (boot unreadable_links)
  = (Raise OSError, boot unreadable_links).
Proof. split; reflexivity. Qed.

Lemma load_links_returns_witness :
  load_links (boot empty_disk) = (Ok [DEFAULT_LINK], boot empty_disk) ∧
  load_links (boot two_links) = (Ok ["A"; "B"], boot two_links) ∧
  load_links (boot unreadable_links)
  = (Raise OSError, boot unreadable_links).
Proof.
  split; [|split].
  - apply (load_links_returns a_up_b_down tick (boot empty_disk)).
    reflexivity.
  - apply (proj1 (proj2 (proj2 (load_links_returns a_up_b_down tick
                                  (boot two_links))))
             ["A"; "B"] EmptyString).
    + by repeat constructor.
    + reflexivity.
    + reflexivity.
  - apply (proj2 (proj2 (proj2 (load_links_returns a_up_b_down tick
                                  (boot unreadable_links))))
             OSError).
    reflexivity.
Defined.

(** Counterexample to C8 as stated: a heartbeat file that cannot be
    opened or decoded makes [read_heartbeat] raise. *)
Lemma unreadable_heartbeat_raises :
  read_heartbeat (boot unreadable_heartbeat)
  = (Raise OSError, boot unreadable_heartbeat).
Proof. reflexivity. Qed.

Lemma read_heartbeat_degrades_witness :
  read_heartbeat (boot corrupt_heartbeat)
  = (Ok (0%Z, None), boot corrupt_heartbeat) ∧
  read_heartbeat (boot separator_heartbeat)
  = (Ok (0%Z, None), boot separator_heartbeat).
Proof.
  split.
  - destruct (read_heartbeat_degrades (boot corrupt_heartbeat))
      as (v & E & _ & Hc & _); [intros e; discriminate|].
    rewrite E. f_equal. f_equal. apply (Hc _ eq_refl). right.
    exists ("seven" +:+ Py.LF). split; reflexivity.
  - destruct (read_heartbeat_degrades (boot separator_heartbeat))
      as (v & E & _ & Hc & _); [intros e; discriminate|].
    rewrite E. f_equal. f_equal. apply (Hc _ eq_refl). right.
    exists (String "028" "1" +:+ Py.LF). split; reflexivity.
Defined.

(** [int] trims blanks, not the separators that [strip] trims too,
    takes a sign and single underscores between digits, and refuses
    more than 4300 digits. *)
Lemma int_samples :
  Py.int (" 42" +:+ Py.LF) = Some 42%Z ∧ Py.int "-1_000" = Some (-1000)%Z ∧
  Py.int (String "028" "1") = None ∧ Py.strip (String "028" "1") = "1" ∧
  Py.int "1__0" = None ∧ Py.int "_1" = None ∧ Py.int "+ 1" = None ∧
  Py.int EmptyString = None ∧
  Py.int (string_of_list_ascii (repeat "1"%char 4300)) ≠ None ∧
  Py.int (string_of_list_ascii (repeat "1"%char 4301)) = None.
Proof. split_and!; (by vm_compute) || (vm_compute; discriminate). Qed.

(** Counterexample to C9 as stated: two distinct links share one event
    file, and the dashboard shows for one what was logged for the
    other. *)
Lemma distinct_links_share_file :
  "http://a/b" ≠ "http://a_b" ∧
  csv_path "http://a/b" = csv_path "http://a_b" ∧
  fst (view_link "http://a_b"
         (snd (append_log tick "http://a/b" (Some true) (Some false)
                 (boot empty_disk))))
  = Ok (Some {| columns := ["datetime"; "Available_For_Call"; "On_Call"];
                rows := [observation (tick 0) true false] |}).
Proof. split; [discriminate|]. split; by vm_compute. Qed.

Lemma storage_name_injective_on_plain_urls_witness :
  "https" +:+ "://" +:+ "a.com/x" = "https" +:+ "://" +:+ "a.com/x".
Proof.
  apply (storage_name_injective_on_plain_urls "https" "a.com/x"
           "https" "a.com/x").
  - by repeat split.
  - by repeat split.
  - reflexivity.
Defined.

Lemma restart_forgets_heartbeat_witness :
  fst (read_heartbeat (with_heartbeat old_heartbeat (boot two_links)))
  = Ok (7%Z, Some "2024-03-08 23:59:59"%string) ∧
  snd (background_tracker a_up_b_down tick 2 (boot two_links))
  = snd (background_tracker a_up_b_down tick 2
           (with_heartbeat old_heartbeat (boot two_links))) ∧
  ∃ w1 now,
    background_tracker a_up_b_down tick 1
      (with_heartbeat old_heartbeat (boot two_links))
    = (Ok 1, w1) ∧
    heartbeat_txt (fs w1) = Some (Data (heartbeat_text 1 (strftime now))) ∧
    read_heartbeat w1 = (Ok (1%Z, Some (strftime now)), w1).
Proof.
  destruct (restart_forgets_heartbeat a_up_b_down tick old_heartbeat 1
              (boot two_links)
              (snd (background_tracker a_up_b_down tick 2
                      (with_heartbeat old_heartbeat (boot two_links))))
              2) as (_ & Hsame & Hfirst).
  - intros e. discriminate.
  - vm_compute. reflexivity.
  - split; [reflexivity|]. split; [|exact Hfirst].
    apply (Hsame None 2
             (snd (background_tracker a_up_b_down tick 2 (boot two_links)))).
    + intros e. discriminate.
    + vm_compute. reflexivity.
Defined.

(** * Further properties of the program *)


(** ** The heartbeat file, written and read back *)

Section HeartbeatRoundTrip.

(** X1: when the heartbeat file is missing or can be read and the file
    system lets it be written, [write_heartbeat] returns, and what it
    wrote, [read_heartbeat] reads back: the count, and the time text
    trimmed, whenever the count has no more digits than [int] accepts
    and the time text holds no line break. *)
Theorem heartbeat_round_trip (count : nat) (last_poll : string) (w : world) :
  readable (heartbeat_txt (fs w)) →
  write_error (fs w) HEARTBEAT_FILE = None →
  String.length (Py.str count) ≤ Py.MAX_STR_DIGITS →
  no_breaks last_poll = true →
  ∃ w',
    write_heartbeat count last_poll w = (Ok tt, w') ∧
    read_heartbeat w'
    = (Ok (Z.of_nat count, Some (Py.strip last_poll)), w').
Proof.
  intros _ Hw Hlen H. unfold write_heartbeat. rewrite Hw.
  eexists. split; [reflexivity|]. rewrite read_heartbeat_cases.
  cbn [emit with_fs fs heartbeat_txt].
  rewrite readlines_line by apply str_no_breaks.
  rewrite readlines_single by done.
  cbn [lookup list_lookup]. by rewrite int_str, strip_app_LF.
Qed.

End HeartbeatRoundTrip.

(** ** Storage names *)

Section StoragePaths.

Import Py.

Lemma replace_slash_free (s : string) :
  free_of "/" (replace "/" "_" s) = true.
Proof.
  induction s as [|c s IH]; [done|]. rewrite replace_slash_cons.
  cbn [free_of]. rewrite IH, andb_true_r. unfold slash_to_underscore.
  destruct (Ascii.eqb_spec c "/") as [->|Hc]; [done|].
  by apply negb_true_iff, Ascii.eqb_neq.
Qed.

Lemma csv_path_unfold (url : string) :
  csv_path url = DATA_DIR +:+ "/" +:+ safe url +:+ ".csv".
Proof.
  unfold csv_path, path_join, safe.
  by rewrite (replace_slash_no_slash _ "csv").
Qed.

Lemma not_a_text_file (s : string) :
  s +:+ ".csv" ≠ "all_links.txt" ∧ s +:+ ".csv" ≠ "heartbeat.txt".
Proof.
  split; intros H;
    (assert (String.length s = 9) as Hl
       by (apply (f_equal String.length) in H;
           rewrite str_app_length in H; cbn in H; lia));
    do 9 (destruct s as [|? s]; [discriminate Hl|]);
    (destruct s; [|discriminate Hl]); discriminate H.
Qed.

(** X8: the storage name of a link holds no path separator, so the
    event file lies directly in the data directory, under that name
    with [.csv] behind it, and is neither the link list file nor the
    heartbeat file. *)
Theorem event_file_stays_in_data_dir (url : string) :
  free_of "/" (safe url) = true ∧
  csv_path url = DATA_DIR +:+ "/" +:+ safe url +:+ ".csv" ∧
  csv_path url ≠ LINKS_FILE ∧
  csv_path url ≠ HEARTBEAT_FILE.
Proof.
  split; [apply replace_slash_free|]. split; [apply csv_path_unfold|].
  rewrite csv_path_unfold.
  split; intros H; apply (inj (String.app DATA_DIR)) in H;
    apply (inj (String.app "/")) in H; by apply not_a_text_file in H.
Qed.

End StoragePaths.

(** ** The link list, loaded and extended *)

Section RegistryMore.

Import Py.

Lemma load_links_stripped (w : world) (links : list string) :
  load_links w = (Ok links, w) →
  Forall (λ l, l ≠ EmptyString ∧ strip l = l) links.
Proof.
  unfold load_links. destruct (links_txt (fs w)) as [[e|text]|]; [done|..].
  - intros [= <-]. apply Forall_forall.
    intros l [Hne (l0 & -> & _)%list_elem_of_fmap]%list_elem_of_filter.
    split; [done|apply strip_idem].
  - intros [= <-]. by repeat constructor.
Qed.

(** X12: every link that [load_links] returns is non-empty and has no
    blank at either end; a link list file that exists and holds blank
    lines only gives no link at all, not the default one. *)
Theorem load_links_trimmed (w : world) :
  (∀ links, load_links w = (Ok links, w) →
     Forall (λ l, l ≠ EmptyString ∧ strip l = l) links) ∧
  (∀ lines,
     Forall (λ l, no_breaks l = true ∧ strip l = EmptyString) lines →
     links_txt (fs w) = Some (Data (unlines lines)) →
     load_links w = (Ok [], w)).
Proof.
  split; [apply load_links_stripped|].
  intros lines Hl Hf.
  rewrite (load_links_text w lines EmptyString); [|
    by eapply Forall_impl; [exact Hl|intros ? []] |done|
    by rewrite str_app_nil_r].
  do 2 f_equal. rewrite fmap_app, filter_app.
  assert (filter (λ l, l ≠ EmptyString) (strip <$> lines) = []) as ->; [|done].
  clear Hf. induction Hl as [|l lines [_ Hs] _ IH]; [done|].
  cbn [fmap list_fmap]. rewrite Hs.
  by rewrite filter_cons_False by (by intros H; apply H).
Qed.











End RegistryMore.

(** ** The start of the background thread *)

Section StartGuard.

Lemma reruns_started (n : nat) (ss : gmap string bool) :
  is_Some (ss !! "tracker_started") → reruns n ss = (0, ss).
Proof.
  intros [b Hb]. induction n as [|n IH]; [done|].
  cbn [reruns]. unfold start_tracker. by rewrite Hb, IH.
Qed.

(** X17: however often the script runs over one session state, the
    background thread is started once if the state did not hold the
    mark, and never if it did; afterwards the state holds the mark and
    its other entries are as before. *)
Theorem tracker_started_once (n : nat) (ss : gmap string bool) :
  fst (reruns (S n) ss)
  = (if ss !! "tracker_started" is Some _ then 0 else 1) ∧
  is_Some (snd (reruns (S n) ss) !! "tracker_started") ∧
  ∀ k, k ≠ "tracker_started" → snd (reruns (S n) ss) !! k = ss !! k.
Proof.
  cbn [reruns]. unfold start_tracker.
  destruct (ss !! "tracker_started") as [b|] eqn:E.
  - rewrite reruns_started by (by rewrite E). cbn. by rewrite E.
  - rewrite reruns_started by (by rewrite lookup_insert_eq). cbn.
    rewrite lookup_insert_eq. split; [done|]. split; [done|].
    intros k Hk. by rewrite lookup_insert_ne.
Qed.

End StartGuard.

(** ** The buttons of a page *)

Section Buttons.

Lemma existsb_perm {A} (f : A → bool) (xs ys : list A) :
  xs ≡ₚ ys → existsb f xs = existsb f ys.
Proof.
  induction 1 as [|x xs ys _ IH|x y xs|xs ys zs _ IH1 _ IH2]; cbn.
  - done.
  - by rewrite IH.
  - by destruct (f x), (f y).
  - congruence.
Qed.

(** X18: the two flags depend on which labels the page shows, not on
    the order of the buttons. *)
Theorem scan_order_irrelevant (texts1 texts2 : list string) :
  texts1 ≡ₚ texts2 →
  scan (Ok <$> texts1) false false = scan (Ok <$> texts2) false false.
Proof.
  intros H. rewrite !scan_all_readable.
  by rewrite (existsb_perm _ _ _ H), (existsb_perm says_joinq _ _ H).
Qed.

Lemma scan_raises_at (before after : list (result string)) (e : exn)
    (c j : bool) :
  Forall (λ b, ∃ t, b = Ok t) before →
  scan (before ++ Raise e :: after) c j = Raise e.
Proof.
  revert c j. induction before as [|b before IH]; intros c j H; [done|].
  inversion H as [|? ? [t ->] Hrest]; subst. cbn [app scan]. by apply IH.
Qed.

(** The first label that cannot be read makes the scan raise its
    exception, whatever the buttons before it said and whatever comes
    behind it. *)
Theorem scan_unreadable_label (before after : list (result string))
    (e : exn) :
  Forall (λ b, ∃ t, b = Ok t) before →
  scan (before ++ Raise e :: after) false false = Raise e.
Proof. apply scan_raises_at. Qed.

End Buttons.

(** ** Whole runs of the scheduler *)

Section Runs.

Variable browser : nat → string → session.
Variable clock : nat → datetime.

(** A relation between worlds that holds across every turn of the loop
    over the links, across a reading of the clock and across the end of
    a cycle holds across every run, whether it completes or raises. *)
Lemma for_each_invariant (R : relation world) :
  Reflexive R → Transitive R →
  (∀ url w, R w (snd (poll_link browser clock url w))) →
  ∀ links w, R w (snd (for_each links (poll_link browser clock) w)).
Proof.
  intros Hrefl Htrans Hpoll links.
  induction links as [|url links IH]; intros w; [apply Hrefl|].
  cbn [for_each]. run. specialize (Hpoll url w).
  destruct (poll_link browser clock url w) as [[[]|e] w0]; [|done].
  etrans; [exact Hpoll|apply IH].
Qed.

Lemma cycle_invariant (R : relation world) :
  Reflexive R → Transitive R →
  (∀ url w, R w (snd (poll_link browser clock url w))) →
  (∀ w, R w (ticked w)) →
  (∀ c w, R w (completed c (clock (clock_reads w)) w)) →
  ∀ count w, R w (snd (cycle browser clock count w)).
Proof.
  intros Hrefl Htrans Hpoll Htick Hend count w. rewrite cycle_cases.
  destruct (load_links w) as [[links|e] w0]; [|apply Hrefl].
  pose proof (for_each_invariant R Hrefl Htrans Hpoll links w) as H.
  destruct (for_each links (poll_link browser clock) w) as [[[]|e] w1];
    [|done].
  destruct (write_error (fs w1) HEARTBEAT_FILE).
  - etrans; [exact H|apply Htick].
  - etrans; [exact H|apply Hend].
Qed.

Lemma run_invariant (R : relation world) :
  Reflexive R → Transitive R →
  (∀ url w, R w (snd (poll_link browser clock url w))) →
  (∀ w, R w (ticked w)) →
  (∀ c w, R w (completed c (clock (clock_reads w)) w)) →
  ∀ n count w, R w (snd (cycles browser clock n count w)).
Proof.
  intros Hrefl Htrans Hpoll Htick Hend n.
  induction n as [|n IH]; intros count w; [apply Hrefl|].
  cbn [cycles]. unfold mbind, M_bind, bind.
  pose proof (cycle_invariant R Hrefl Htrans Hpoll Htick Hend count w) as H.
  destruct (cycle browser clock count w) as [[c|e] w0]; [|done].
  etrans; [exact H|apply IH].
Qed.

Lemma opened_app (tr tr' : list event) :
  opened (tr ++ tr') = opened tr + opened tr'.
Proof.
  induction tr as [|e tr IH]; [done|]. destruct e; cbn; by rewrite ?IH.
Qed.

Lemma closed_app (tr tr' : list event) :
  closed (tr ++ tr') = closed tr + closed tr'.
Proof.
  induction tr as [|e tr IH]; [done|]. destruct e; cbn; by rewrite ?IH.
Qed.

Lemma appended_app (tr tr' : list event) :
  appended (tr ++ tr') = appended tr ++ appended tr'.
Proof.
  induction tr as [|e tr IH]; [done|]. destruct e; cbn; by rewrite ?IH.
Qed.

(** The five ways a turn of the loop over the links can end: the
    browser does not start; the probe fails and the link is skipped;
    the event file cannot be read; it cannot be written; the row is
    logged. *)
Lemma poll_link_outcome (url : string) (w : world) :
  (∃ e, poll_link browser clock url w
        = (Raise e,
           {| fs := fs w; trace := trace w; clock_reads := clock_reads w;
              sessions := S (sessions w) |})) ∨
  (∃ msgs, poll_link browser clock url w
           = (Ok tt, emit (EPrint msgs.2) (probed url [EPrint msgs.1] w))) ∨
  (∃ e, poll_link browser clock url w = (Raise e, probed url [] w)) ∨
  (∃ e, poll_link browser clock url w = (Raise e, ticked (probed url [] w))) ∨
  (∃ c j,
     poll_link browser clock url w
     = (Ok tt,
        logged url
          (concat
             (frame_or_new (event_csv (fs w) !! csv_path url))
             (DataFrame_of (observation (clock (clock_reads w)) c j)))
          (probed url [] w)) ∧
     readable (event_csv (fs w) !! csv_path url)).
Proof.
  rewrite poll_link_cases.
  destruct (start (browser (sessions w) url)) as [[]|e]; [|left; by exists e].
  right. destruct (guarded (browser (sessions w) url)) as [[c j]|e].
  - right. rewrite append_log_stores. cbn zeta.
    change (event_csv (fs (probed url [] w))) with (event_csv (fs w)).
    change (write_error (fs (probed url [] w))) with (write_error (fs w)).
    change (clock_reads (probed url [] w)) with (clock_reads w).
    destruct (event_csv (fs w) !! csv_path url) as [[e|df]|] eqn:E;
      [left; by exists e|..];
      (destruct (write_error (fs w) (csv_path url)) as [e|];
       [right; left; by exists e|]);
      right; right; exists c, j; (split; [done|]); by intros e.
  - left. by eexists (_, _).
Qed.


Lemma balanced_run (n count : nat) (w : world) :
  balanced w (snd (cycles browser clock n count w)).
Proof.
  apply run_invariant.
  - intros w0. unfold balanced. lia.
  - intros w1 w2 w3. unfold balanced. lia.
  - intros url w0. unfold balanced.
    destruct (poll_link_outcome url w0)
      as [[e ->]|[[msgs ->]|[[e ->]|[[e ->]|(c & j & -> & _)]]]];
      cbn; rewrite ?opened_app, ?closed_app; cbn; lia.
  - intros w0. unfold balanced. cbn. lia.
  - intros c w0. unfold balanced. cbn. rewrite opened_app, closed_app.
    cbn. lia.
Qed.

(** X3: along any run of the scheduler, completed or ended by an
    exception, every browser session that was opened has been quit. *)
Theorem sessions_are_quit (n : nat) (w : world) :
  opened (trace (snd (background_tracker browser clock n w)))
  + closed (trace w)
  = closed (trace (snd (background_tracker browser clock n w)))
    + opened (trace w).
Proof. apply balanced_run. Qed.


Lemma registry_kept_run (n count : nat) (w : world) :
  registry_kept w (snd (cycles browser clock n count w)).
Proof.
  apply run_invariant.
  - by intros w0.
  - intros w1 w2 w3 [A1 B1] [A2 B2]. split; congruence.
  - intros url w0. unfold registry_kept.
    destruct (poll_link_outcome url w0)
      as [[e ->]|[[msgs ->]|[[e ->]|[[e ->]|(c & j & -> & _)]]]];
      cbn; rewrite ?appended_app; cbn; by rewrite ?app_nil_r.
  - by intros w0.
  - intros c w0. unfold registry_kept. cbn. rewrite appended_app. cbn.
    by rewrite app_nil_r.
Qed.

(** X5: the scheduler never writes the link list file: after any run,
    completed or not, the file is as it was and no line was appended to
    it. *)
Theorem scheduler_keeps_registry (n : nat) (w : world) :
  links_txt (fs (snd (background_tracker browser clock n w)))
  = links_txt (fs w) ∧
  appended (trace (snd (background_tracker browser clock n w)))
  = appended (trace w).
Proof. apply registry_kept_run. Qed.










Lemma poll_link_counts (url : string) (w w0 : world) (p : string) :
  poll_link browser clock url w = (Ok tt, w0) →
  sessions w0 = S (sessions w) ∧
  length (history w0 p)
  = length (history w p)
    + (if bool_decide (csv_path url = p)
       then match guarded (browser (sessions w) url) with
            | Ok _ => 1
            | Raise _ => 0
            end
       else 0).
Proof.
  rewrite poll_link_cases.
  destruct (start (browser (sessions w) url)) as [[]|e]; [|done].
  destruct (guarded (browser (sessions w) url)) as [[c j]|e].
  - rewrite append_log_stores. cbn zeta.
    change (event_csv (fs (probed url [] w))) with (event_csv (fs w)).
    change (write_error (fs (probed url [] w))) with (write_error (fs w)).
    destruct (event_csv (fs w) !! csv_path url) as [[e|df]|] eqn:E;
      [done|..];
      (destruct (write_error (fs w) (csv_path url)); [done|]);
      intros [= <-]; (split; [done|]); unfold history;
      cbn [logged probed fs event_csv frame_or_new]; case_bool_decide as Hp.
    + subst p. rewrite lookup_insert_eq, E. cbn [rows concat DataFrame_of].
      by rewrite length_app.
    + rewrite lookup_insert_ne by done. lia.
    + subst p. rewrite lookup_insert_eq, E. cbn [rows concat DataFrame_of
        DataFrame_empty]. by rewrite length_app.
    + rewrite lookup_insert_ne by done. lia.
  - intros [= <-]. split; [done|]. unfold history. cbn [emit probed fs].
    case_bool_decide; lia.
Qed.

Lemma for_each_counts (links : list string) (w w1 : world) (p : string) :
  for_each links (poll_link browser clock) w = (Ok tt, w1) →
  length (history w1 p)
  = length (history w p) + successes browser p links (sessions w).
Proof.
  revert w. induction links as [|url links IH]; intros w.
  - intros [= <-]. cbn. lia.
  - cbn [for_each successes]. run.
    destruct (poll_link browser clock url w) as [[[]|e] w0] eqn:E; [|done].
    apply (poll_link_counts _ _ _ p) in E as [Hs Hl].
    intros H. apply IH in H. rewrite H, Hl, Hs. lia.
Qed.

(** X7: in a cycle that completes, each event file gains exactly one row
    for every link of the list that is stored under it and whose probe
    gave the two flags, and none for the others. *)
Theorem cycle_logs_each_success (count : nat) (w w' : world) (c : nat)
    (p : string) :
  cycle browser clock count w = (Ok c, w') →
  ∃ links,
    load_links w = (Ok links, w) ∧
    length (history w' p)
    = length (history w p) + successes browser p links (sessions w).
Proof.
  intros H.
  apply cycle_completes in H as (links & w1 & El & Ef & _ & _ & _ & ->).
  exists links. split; [done|]. by apply (for_each_counts _ _ _ p) in Ef.
Qed.




(** X10: when the event file of a link is missing or can be read and
    the file system lets it be written, what [append_log] stored for
    the link is what the link selector of the dashboard reads, for that
    link and for every other link with the same storage name: the rows
    held before, then the new one. *)
Theorem logged_row_is_viewed (url sel : string) (c j : bool) (w : world) :
  sel ≠ EmptyString → csv_path sel = csv_path url →
  readable (event_csv (fs w) !! csv_path url) →
  write_error (fs w) (csv_path url) = None →
  ∃ w' df,
    append_log clock url (Some c) (Some j) w = (Ok tt, w') ∧
    view_link sel w' = (Ok (Some df), w') ∧
    rows df
    = history w (csv_path url) ++ [observation (clock (clock_reads w)) c j].
Proof.
  intros Hsel Hp Hr Hw. rewrite append_log_stores. cbn zeta. rewrite Hw.
  unfold view_link, history. rewrite bool_decide_eq_true_2, Hp by done.
  destruct (event_csv (fs w) !! csv_path url) as [[e|df]|] eqn:E;
    [by destruct (Hr e)|..];
    eexists _, _; (split; [reflexivity|]); cbn [logged fs event_csv];
    rewrite lookup_insert_eq; done.
Qed.

Lemma for_each_raises (links : list string) (w w' : world) (e : exn) :
  for_each links (poll_link browser clock) w = (Raise e, w') →
  ∃ before url after w1,
    links = before ++ url :: after ∧
    for_each before (poll_link browser clock) w = (Ok tt, w1) ∧
    poll_link browser clock url w1 = (Raise e, w').
Proof.
  revert w. induction links as [|url links IH]; intros w; [done|].
  cbn [for_each]. run.
  destruct (poll_link browser clock url w) as [[[]|e0] w0] eqn:E.
  - intros H. destruct (IH _ H) as (before & u & after & w1 & -> & Hb & Hu).
    exists (url :: before), u, after, w1. split; [done|]. split; [|done].
    cbn [for_each]. run. by rewrite E.
  - intros [= -> ->]. by exists [], url, links, w.
Qed.

(** X11: with a console, a clock and a browser shutdown that do not
    raise, a cycle is ended by an exception in five cases only, and the
    exception is the one of the case: the link list file cannot be read;
    the browser does not start for a link, the links before it having
    been processed; the probe of a link gave its flags and the event
    file of that link cannot be read, or may not be written; or, all
    links having been processed, the heartbeat file may not be
    written. *)
Theorem cycle_raises_only (count : nat) (w w' : world) (e : exn) :
  cycle browser clock count w = (Raise e, w') →
  links_txt (fs w) = Some (Unreadable e) ∨
  ∃ links,
    load_links w = (Ok links, w) ∧
    ((∃ before url after w1,
        links = before ++ url :: after ∧
        for_each before (poll_link browser clock) w = (Ok tt, w1) ∧
        (start (browser (sessions w1) url) = Raise e ∨
         ((∃ v, guarded (browser (sessions w1) url) = Ok v) ∧
          (event_csv (fs w1) !! csv_path url = Some (Unreadable e) ∨
           write_error (fs w1) (csv_path url) = Some e)))) ∨
     (∃ w1,
        for_each links (poll_link browser clock) w = (Ok tt, w1) ∧
        write_error (fs w1) HEARTBEAT_FILE = Some e)).
Proof.
  rewrite cycle_cases.
  destruct (load_links w) as [[links|e0] w0] eqn:El.
  - pose proof (load_links_world _ _ _ El) as Hw. subst w0.
    intros H. right. exists links. split; [done|].
    destruct (for_each links (poll_link browser clock) w)
      as [[[]|e1] w1] eqn:Ef.
    + right. exists w1. split; [done|].
      destruct (write_error (fs w1) HEARTBEAT_FILE); [|done].
      by injection H as ->.
    + injection H as -> ->. left.
      apply for_each_raises in Ef
        as (before & url & after & w1 & -> & Hb & Hu).
      exists before, url, after, w1.
      split; [done|]. split; [done|].
      rewrite poll_link_cases in Hu.
      destruct (start (browser (sessions w1) url)) as [[]|e0];
        [|left; congruence].
      right. destruct (guarded (browser (sessions w1) url)) as [[c j]|e0];
        [|done].
      split; [by eexists|].
      rewrite append_log_stores in Hu. cbn zeta in Hu.
      change (event_csv (fs (probed url [] w1)))
        with (event_csv (fs w1)) in Hu.
      change (write_error (fs (probed url [] w1)))
        with (write_error (fs w1)) in Hu.
      destruct (event_csv (fs w1) !! csv_path url) as [[e0|df]|];
        [left; congruence|..];
        (destruct (write_error (fs w1) (csv_path url)); [|done]);
        right; congruence.
  - intros [= -> ->]. left. unfold load_links in El.
    destruct (links_txt (fs w')) as [[e0|text]|]; [|done..].
    by injection El as <-.
Qed.


End Runs.

(** * The further properties on sample runs *)


Lemma heartbeat_round_trip_witness :
  ∃ w',
    write_heartbeat 3 "2024-03-09 12:00:00" (boot corrupt_heartbeat)
    = (Ok tt, w') ∧
    read_heartbeat w' = (Ok (3%Z, Some "2024-03-09 12:00:00"%string), w').
Proof.
  apply (heartbeat_round_trip 3 "2024-03-09 12:00:00"
           (boot corrupt_heartbeat)).
  - intros e. discriminate.
  - reflexivity.
  - apply Nat.leb_le. reflexivity.
  - reflexivity.
Defined.


(** An event file that [read_csv] does not parse ends the cycle once
    the probe of its link gives the flags, and so does a link whose
    storage name is longer than the file system allows; a heartbeat
    file that may not be written ends the cycle behind the loop over
    the links, where the row of A is logged and no heartbeat is
    written. *)
Lemma refused_write_ends_cycle :
  fst (cycle a_up_b_down tick 0 (boot a_log_unreadable)) = Raise ValueError ∧
  fst (load_links (boot long_link_listed)) = Ok [long_link] ∧
  fst (cycle (λ _ _, page [" Call Now "]) tick 0 (boot long_link_listed))
  = Raise OSError ∧
  fst (cycle a_up_b_down tick 0 (boot heartbeat_locked)) = Raise OSError ∧
  heartbeats
    (trace (snd (cycle a_up_b_down tick 0 (boot heartbeat_locked)))) = [] ∧
  history (snd (cycle a_up_b_down tick 0 (boot heartbeat_locked)))
    (csv_path "A")
  = [observation (tick 0) true false].
Proof. by vm_compute. Qed.


Lemma cycle_logs_each_success_witness :
  ∃ links,
    load_links (boot two_links) = (Ok links, boot two_links) ∧
    length
      (history (snd (cycle a_up_b_down tick 0 (boot two_links)))
         (csv_path "A"))
    = length (history (boot two_links) (csv_path "A"))
      + successes a_up_b_down (csv_path "A") links
          (sessions (boot two_links)).
Proof.
  apply (cycle_logs_each_success a_up_b_down tick 0 (boot two_links) _ 1).
  vm_compute. reflexivity.
Defined.


Lemma logged_row_is_viewed_witness :
  ∃ w' df,
    append_log tick "http://a/b" (Some true) (Some false) (boot shared_log)
    = (Ok tt, w') ∧
    view_link "http://a_b" w' = (Ok (Some df), w') ∧
    rows df = [old_row] ++ [observation (tick 0) true false].
Proof.
  apply (logged_row_is_viewed tick "http://a/b" "http://a_b" true false
           (boot shared_log)).
  - discriminate.
  - reflexivity.
  - intros e. vm_compute. discriminate.
  - reflexivity.
Defined.

Lemma cycle_raises_only_witness :
  links_txt (fs (boot heartbeat_locked)) = Some (Unreadable OSError) ∨
  ∃ links,
    load_links (boot heartbeat_locked) = (Ok links, boot heartbeat_locked) ∧
    ((∃ before url after w1,
        links = before ++ url :: after ∧
        for_each before (poll_link a_up_b_down tick) (boot heartbeat_locked)
        = (Ok tt, w1) ∧
        (start (a_up_b_down (sessions w1) url) = Raise OSError ∨
         ((∃ v, guarded (a_up_b_down (sessions w1) url) = Ok v) ∧
          (event_csv (fs w1) !! csv_path url = Some (Unreadable OSError) ∨
           write_error (fs w1) (csv_path url) = Some OSError)))) ∨
     (∃ w1,
        for_each links (poll_link a_up_b_down tick) (boot heartbeat_locked)
        = (Ok tt, w1) ∧
        write_error (fs w1) HEARTBEAT_FILE = Some OSError)).
Proof.
  apply (cycle_raises_only a_up_b_down tick 0 (boot heartbeat_locked)
           (snd (cycle a_up_b_down tick 0 (boot heartbeat_locked)))).
  vm_compute. reflexivity.
Defined.

Lemma load_links_trimmed_witness :
  load_links (boot blank_links) = (Ok [], boot blank_links).
Proof.
  apply (proj2 (load_links_trimmed (boot blank_links))
           [" "%string; EmptyString]).
  - by repeat constructor.
  - reflexivity.
Defined.





Lemma scan_order_irrelevant_witness :
  scan (Ok <$> ["Chat"; " Call Now "]) false false
  = scan (Ok <$> [" Call Now "; "Chat"]) false false.
Proof.
  apply (scan_order_irrelevant ["Chat"; " Call Now "] [" Call Now "; "Chat"]).
  apply perm_swap.
Defined.
